(** * Add-on activation in scrapy: [scrapy/addons.py]

    A shallow embedding of [AddonManager] (its constructor, [load_settings]
    and the class method [load_pre_crawler_settings]) and the properties of
    the two activation phases: failure isolation, fatal propagation, order,
    visibility of settings mutations and the frame of each phase. *)

From Stdlib Require Import ssreflect.
Set Warnings "-rewrite-rw".
From stdpp Require Import gmap strings list.

Set Default Proof Using "Type".

(** ** Python values and exceptions *)

(** The values that settings entries and exception arguments take here.
    [PyMapping] is a [{identifier: priority}] dict, in insertion order. *)
Inductive PyVal :=
| PyNone
| PyBool (b : bool)
| PyInt (z : Z)
| PyStr (s : string)
| PyMapping (items : list (string * Z)).

(** [scrapy.exceptions.NotConfigured] carries [e.args]; every other
    exception class is named by [OtherError]. *)
Inductive exn :=
| NotConfigured (args : list PyVal)
| OtherError (name : string).

(** A call either returns or raises. *)
Inductive Res (A : Type) :=
| Ret (a : A)
| Exc (e : exn).
Arguments Ret {A} a.
Arguments Exc {A} e.

(** The settings object: named entries, mutated in place by add-on code. A
    call that receives it hands back the object as the call left it, also
    when the call raises. Add-on code works on the settings; the list of
    active add-ons and the logger are the manager's own. *)
Abbreviation Settings := (gmap string PyVal).
Abbreviation Effect A := (Settings → Res A * Settings).

(** ** The world the manager runs in *)

Section addons.
Context {Crawler AddonCls Addon : Type}.

(** The collaborators imported by [addons.py]. *)
(** [scrapy.utils.conf.build_component_list], applied to
    [settings["ADDONS"]]. *)
Variable build_component_list : option PyVal → Res (list string).
(** [scrapy.utils.misc.load_object]. *)
Variable load_object : string → Res AddonCls.
(** [scrapy.utils.misc.build_from_crawler]: runs the class's constructor,
    which reaches the settings through the crawler. *)
Variable build_from_crawler : AddonCls → Crawler → Effect Addon.
(** [hasattr(addon, "update_settings")] and the bound method. *)
Variable update_settings : Addon → option (Effect unit).
(** [hasattr(addoncls, "update_pre_crawler_settings")] and the class
    method. *)
Variable update_pre_crawler_settings : AddonCls → option (Effect unit).

(** [class AddonManager]: [self.crawler] and [self.addons]. *)
Record AddonManager := mkAddonManager {
  crawler : Crawler;
  addons : list Addon
}.

(** [AddonManager.__init__]. *)
Definition init (c : Crawler) : AddonManager :=
  {| crawler := c; addons := [] |}.

(** Records handed to [logger]. *)
Inductive LogRecord :=
| Warning (clspath : string) (eargs : PyVal)
    (* "Disabled %(clspath)s: %(eargs)s" *)
| Info (enabled : list Addon).
    (* "Enabled addons:\n%(addons)s" *)

(** The calls the manager makes to its collaborators, in program order.
    A hook call records the settings as the hook receives them. *)
Inductive Call :=
| CallResolve (v : option PyVal)
| CallLoad (clspath : string)
| CallBuild (clspath : string)
| CallUpdateSettings (clspath : string) (seen : Settings)
| CallUpdatePre (clspath : string) (seen : Settings).

Record World := mkWorld {
  settings : Settings;
  manager : AddonManager;
  log : list LogRecord;
  calls : list Call
}.

(** Field updates. *)
Definition set_settings (s : Settings) (w : World) : World :=
  {| settings := s; manager := manager w; log := log w; calls := calls w |}.
Definition set_addons (l : list Addon) (w : World) : World :=
  {| settings := settings w;
     manager := {| crawler := crawler (manager w); addons := l |};
     log := log w; calls := calls w |}.
Definition emit (r : LogRecord) (w : World) : World :=
  {| settings := settings w; manager := manager w;
     log := log w ++ [r]; calls := calls w |}.
Definition record (c : Call) (w : World) : World :=
  {| settings := settings w; manager := manager w;
     log := log w; calls := calls w ++ [c] |}.

(** ** Statements: state passing with exceptions *)

Definition M (A : Type) : Type := World → Res A * World.

#[global] Instance M_ret : MRet M := λ A a w, (Ret a, w).
#[global] Instance M_bind : MBind M := λ A B f m w,
  match m w with
  | (Ret a, w') => f a w'
  | (Exc e, w') => (Exc e, w')
  end.

(** [raise e] *)
Definition raise {A} (e : exn) : M A := λ w, (Exc e, w).

(** [try: body / except NotConfigured as e: handler e.args] *)
Definition try_except_NotConfigured {A} (body : M A)
    (handler : list PyVal → M A) : M A := λ w,
  match body w with
  | (Exc (NotConfigured args), w') => handler args w'
  | r => r
  end.

(** [for x in l: body x] *)
Fixpoint for_each (l : list string) (body : string → M unit) : M unit :=
  match l with
  | [] => mret tt
  | x :: l' => body x ;; for_each l' body
  end.

(** [settings[name]]; a name that is not set reads as [None]. *)
Definition getitem (name : string) : M (option PyVal) := λ w,
  (Ret (settings w !! name), w).

Definition call_build_component_list (v : option PyVal)
    : M (list string) := λ w,
  (build_component_list v, record (CallResolve v) w).

Definition call_load_object (clspath : string) : M AddonCls := λ w,
  (load_object clspath, record (CallLoad clspath) w).

(** [build_from_crawler(addoncls, self.crawler)] *)
Definition call_build_from_crawler (clspath : string) (addoncls : AddonCls)
    : M Addon := λ w,
  let '(r, s) := build_from_crawler addoncls (crawler (manager w))
                   (settings w) in
  (r, set_settings s (record (CallBuild clspath) w)).

(** [addon.update_settings(settings)] *)
Definition call_update_settings (clspath : string) (hook : Effect unit)
    : M unit := λ w,
  let '(r, s) := hook (settings w) in
  (r, set_settings s (record (CallUpdateSettings clspath (settings w)) w)).

(** [addoncls.update_pre_crawler_settings(settings)] *)
Definition call_update_pre_crawler_settings (clspath : string)
    (hook : Effect unit) : M unit := λ w,
  let '(r, s) := hook (settings w) in
  (r, set_settings s (record (CallUpdatePre clspath (settings w)) w)).

(** [self.addons.append(addon)] *)
Definition addons_append (addon : Addon) : M unit := λ w,
  (Ret tt, set_addons (addons (manager w) ++ [addon]) w).

Definition logger_warning (clspath : string) (eargs : PyVal) : M unit :=
  λ w, (Ret tt, emit (Warning clspath eargs) w).

Definition logger_info_enabled : M unit := λ w,
  (Ret tt, emit (Info (addons (manager w))) w).

(** ** [AddonManager.load_settings] *)

(** The [except NotConfigured as e] clause, lines 42-48: [if e.args:] logs
    [e.args[0]]. *)
Definition disabled (clspath : string) (e_args : list PyVal) : M unit :=
  match e_args with
  | eargs :: _ => logger_warning clspath eargs
  | [] => mret tt
  end.

(** The body of the loop, lines 36-48. *)
Definition load_settings_body (clspath : string) : M unit :=
  try_except_NotConfigured
    (addoncls ← call_load_object clspath;
     addon ← call_build_from_crawler clspath addoncls;
     match update_settings addon with
     | Some hook => call_update_settings clspath hook
     | None => mret tt
     end;;
     addons_append addon)
    (disabled clspath).

Definition load_settings : M unit :=
  v ← getitem "ADDONS";
  paths ← call_build_component_list v;
  for_each paths load_settings_body;;
  logger_info_enabled.

(** ** [AddonManager.load_pre_crawler_settings] *)

(** The body of the loop, lines 70-72. *)
Definition load_pre_crawler_settings_body (clspath : string) : M unit :=
  addoncls ← call_load_object clspath;
  match update_pre_crawler_settings addoncls with
  | Some hook => call_update_pre_crawler_settings clspath hook
  | None => mret tt
  end.

Definition load_pre_crawler_settings : M unit :=
  v ← getitem "ADDONS";
  paths ← call_build_component_list v;
  for_each paths load_pre_crawler_settings_body.

End addons.

Arguments mkWorld {Crawler Addon} settings manager log calls.
Arguments init {Crawler Addon} c.
Arguments World : clear implicits.
Arguments M : clear implicits.

(** The world once the resolver call that opens either phase is made. *)
Abbreviation resolved w :=
  (record (CallResolve (settings w !! "ADDONS")) w).

(** ** Reading a trace *)

(** The identifier a call is made for ([None] for the resolver call). *)
Definition call_clspath (c : Call) : option string :=
  match c with
  | CallResolve _ => None
  | CallLoad p | CallBuild p | CallUpdateSettings p _ | CallUpdatePre p _ =>
      Some p
  end.

(** Identifiers handed to [load_object], in call order. *)
Definition loaded (cs : list Call) : list string :=
  omap (λ c, match c with CallLoad p => Some p | _ => None end) cs.

(** Identifiers whose settings hook (of either phase) was invoked, in call
    order. *)
Definition hooked (cs : list Call) : list string :=
  omap (λ c, match c with
             | CallUpdateSettings p _ | CallUpdatePre p _ => Some p
             | _ => None
             end) cs.

(** Calls that create or use an add-on instance. *)
Definition instance_call (c : Call) : bool :=
  match c with
  | CallBuild _ | CallUpdateSettings _ _ => true
  | _ => false
  end.

(** The calls one run of a loop body makes for [clspath]: one load, the
    hook at most once, and nothing for another identifier. *)
Definition calls_for (clspath : string) (cs : list Call) : Prop :=
  loaded cs = [clspath] ∧
  hooked cs `sublist_of` [clspath] ∧
  Forall (λ c, call_clspath c = Some clspath) cs.

(** The records a [NotConfigured] with arguments [e_args] leaves in the log
    for [clspath]. *)
Definition disabled_log {Addon} (clspath : string) (e_args : list PyVal)
    : list (@LogRecord Addon) :=
  match e_args with
  | eargs :: _ => [Warning clspath eargs]
  | [] => []
  end.

(** [cs] is the trace of processing the identifiers [ids] one after the
    other, in that order. *)
Definition processes (ids : list string) (cs : list Call) : Prop :=
  ∃ chunks : list (list Call),
    cs = concat chunks ∧ Forall2 calls_for ids chunks.

(** ** Reading the log *)

Definition is_warning {Addon} (r : @LogRecord Addon) : bool :=
  match r with Warning _ _ => true | Info _ => false end.

(** Identifiers a warning was logged for, in log order. *)
Definition warned {Addon} (rs : list (@LogRecord Addon)) : list string :=
  omap (λ r, match r with Warning p _ => Some p | Info _ => None end) rs.

(** The calls for [clspath] in the order the body of [load_settings] makes
    them: [load_object], then [build_from_crawler], then
    [update_settings], stopping anywhere after the first. *)
Definition ordered_calls (clspath : string) (cs : list Call) : Prop :=
  cs = [CallLoad clspath] ∨
  cs = [CallLoad clspath; CallBuild clspath] ∨
  ∃ seen, cs = [CallLoad clspath; CallBuild clspath;
                CallUpdateSettings clspath seen].

(** ** What one identifier does to the settings *)

Section effects.
Context {Crawler AddonCls Addon : Type}.
Variable load_object : string → Res AddonCls.
Variable build_from_crawler : AddonCls → Crawler → Effect Addon.
Variable update_settings : Addon → option (Effect unit).
Variable update_pre_crawler_settings : AddonCls → option (Effect unit).

(** The settings after lines 37-40 of [load_settings] for [clspath]: the
    constructor works on them, then [update_settings] if the instance has
    it; what either did stays when it raises. *)
Definition settings_after (c : Crawler) (s : Settings) (clspath : string)
    : Settings :=
  match load_object clspath with
  | Exc _ => s
  | Ret addoncls =>
      match build_from_crawler addoncls c s with
      | (Exc _, s1) => s1
      | (Ret addon, s1) =>
          match update_settings addon with
          | Some hook => (hook s1).2
          | None => s1
          end
      end
  end.

(** The settings after lines 70-72 of [load_pre_crawler_settings] for
    [clspath]. *)
Definition settings_after_pre (s : Settings) (clspath : string) : Settings :=
  match load_object clspath with
  | Exc _ => s
  | Ret addoncls =>
      match update_pre_crawler_settings addoncls with
      | Some hook => (hook s).2
      | None => s
      end
  end.

(** The instance line 41 of [load_settings] appends for [clspath], if it
    gets there: [load_object] and the constructor returned, and so did
    [update_settings] when the instance has it. *)
Definition activated (c : Crawler) (s : Settings) (clspath : string)
    : option Addon :=
  match load_object clspath with
  | Exc _ => None
  | Ret addoncls =>
      match build_from_crawler addoncls c s with
      | (Exc _, _) => None
      | (Ret addon, s1) =>
          match update_settings addon with
          | Some hook =>
              match (hook s1).1 with
              | Ret _ => Some addon
              | Exc _ => None
              end
          | None => Some addon
          end
      end
  end.

(** Whether lines 37-40 of [load_settings] get to call [update_settings]
    for [clspath]: the constructor returned an instance that has it. *)
Definition calls_update_settings (c : Crawler) (s : Settings)
    (clspath : string) : bool :=
  match load_object clspath with
  | Exc _ => false
  | Ret addoncls =>
      match build_from_crawler addoncls c s with
      | (Exc _, _) => false
      | (Ret addon, _) =>
          match update_settings addon with
          | Some _ => true
          | None => false
          end
      end
  end.

(** Whether lines 70-72 of [load_pre_crawler_settings] call the hook for
    [clspath]: the class was loaded and has it. *)
Definition calls_update_pre_crawler_settings (clspath : string) : bool :=
  match load_object clspath with
  | Exc _ => false
  | Ret addoncls =>
      match update_pre_crawler_settings addoncls with
      | Some _ => true
      | None => false
      end
  end.

(** The instances appended along a list of identifiers, each identifier
    working on the settings the one before left. *)
Fixpoint activated_along (c : Crawler) (s : Settings) (l : list string)
    : list Addon :=
  match l with
  | [] => []
  | x :: l' =>
      option_list (activated c s x)
        ++ activated_along c (settings_after c s x) l'
  end.

(** The identifiers whose [update_settings] is called along a list. *)
Fixpoint hooked_along (c : Crawler) (s : Settings) (l : list string)
    : list string :=
  match l with
  | [] => []
  | x :: l' =>
      (if calls_update_settings c s x then [x] else [])
        ++ hooked_along c (settings_after c s x) l'
  end.

End effects.

(** ** The component resolver *)

(** Modelled from the spec: [build_component_list] is defined in
    [scrapy/utils/conf.py], outside [addons.py]. The resolver turns a
    [{identifier: priority}] mapping into the sequence of its identifiers,
    priority ascending; [insert_by_priority] puts one entry in its place. *)
Fixpoint insert_by_priority (x : string * Z) (l : list (string * Z))
    : list (string * Z) :=
  match l with
  | [] => [x]
  | y :: l' =>
      if (x.2 <=? y.2)%Z then x :: y :: l' else y :: insert_by_priority x l'
  end.

(** Modelled from the spec: the body of [build_component_list] on a
    mapping, the identifiers by ascending priority. *)
Definition resolve (items : list (string * Z)) : list string :=
  (foldr insert_by_priority [] items).*1.

(** Modelled from the spec: [build_component_list] as [load_settings]
    calls it, on what [settings["ADDONS"]] holds. The resolver is described
    on mappings only; this model raises on anything else. *)
Definition spec_build_component_list (v : option PyVal) : Res (list string) :=
  match v with
  | Some (PyMapping items) => Ret (resolve items)
  | _ => Exc (OtherError "TypeError")
  end.

(** ** A small project: add-on classes to run the manager on *)

Module Example.

Inductive Cls := Alpha | Beta | Plain | Reader | Shy | Broken | Early.

Inductive Instance :=
| BetaInstance | PlainInstance | ReaderInstance | ShyInstance | EarlyInstance.

(** [pkg.Lazy] is a module that raises [NotConfigured] when imported; any
    other unknown path cannot be imported. *)
Definition load_object (clspath : string) : Res Cls :=
  if String.eqb clspath "pkg.Alpha" then Ret Alpha
  else if String.eqb clspath "pkg.Beta" then Ret Beta
  else if String.eqb clspath "pkg.Plain" then Ret Plain
  else if String.eqb clspath "pkg.Reader" then Ret Reader
  else if String.eqb clspath "pkg.Shy" then Ret Shy
  else if String.eqb clspath "pkg.Broken" then Ret Broken
  else if String.eqb clspath "pkg.Early" then Ret Early
  else if String.eqb clspath "pkg.Lazy"
       then Exc (NotConfigured [PyStr "module opted out"])
  else Exc (OtherError "NameError").

(** [Alpha] misses an optional dependency; [Broken] has a faulty
    constructor. *)
Definition build_from_crawler (cls : Cls) (_ : unit) : Effect Instance :=
  λ s,
  match cls with
  | Alpha => (Exc (NotConfigured [PyStr "no optional dependency"]), s)
  | Beta => (Ret BetaInstance, s)
  | Plain => (Ret PlainInstance, s)
  | Reader => (Ret ReaderInstance, s)
  | Shy => (Ret ShyInstance, s)
  | Broken => (Exc (OtherError "ValueError"), s)
  | Early => (Ret EarlyInstance, s)
  end.

(** [Beta] switches a feature on; [Reader] copies what it reads under
    [ENABLED_FEATURE] to [SEEN]; [Shy] leaves a mark and opts out without a
    reason; [Plain] and [Early] have no [update_settings]. *)
Definition update_settings (a : Instance) : option (Effect unit) :=
  match a with
  | BetaInstance =>
      Some (λ s, (Ret tt, <["ENABLED_FEATURE" := PyBool true]> s))
  | ReaderInstance =>
      Some (λ s, (Ret tt,
                  <["SEEN" := default PyNone (s !! "ENABLED_FEATURE")]> s))
  | ShyInstance =>
      Some (λ s, (Exc (NotConfigured []), <["SHY_WAS_HERE" := PyBool true]> s))
  | PlainInstance | EarlyInstance => None
  end.

(** [Beta] sets a static default before the crawler exists; [Reader] reads
    it; [Early] opts out, which this phase does not expect. *)
Definition update_pre_crawler_settings (cls : Cls) : option (Effect unit) :=
  match cls with
  | Beta => Some (λ s, (Ret tt, <["ENABLED_FEATURE" := PyBool true]> s))
  | Reader =>
      Some (λ s, (Ret tt,
                  <["SEEN" := default PyNone (s !! "ENABLED_FEATURE")]> s))
  | Early => Some (λ s, (Exc (NotConfigured [PyStr "too early"]), s))
  | _ => None
  end.

(** A fresh process: the settings hold [ADDONS] only, the manager has just
    been constructed, nothing was logged or called. *)
Definition world (cfg : list (string * Z)) : World unit Instance :=
  mkWorld {[ "ADDONS" := PyMapping cfg ]} (init tt) [] [].

Definition load_settings : M unit Instance unit :=
  load_settings spec_build_component_list load_object build_from_crawler
    update_settings.

Definition load_pre_crawler_settings : M unit Instance unit :=
  load_pre_crawler_settings spec_build_component_list load_object
    update_pre_crawler_settings.

Definition load_settings_body : string → M unit Instance unit :=
  load_settings_body load_object build_from_crawler update_settings.

Definition load_pre_crawler_settings_body : string → M unit Instance unit :=
  load_pre_crawler_settings_body load_object update_pre_crawler_settings.

End Example.

(** The same project with two add-ons that write to the settings and then
    fail. *)
Module Faulty.

(** The constructor of [Broken] leaves a mark before it raises. *)
Definition build_from_crawler (cls : Example.Cls) (c : unit)
    : Effect Example.Instance :=
  λ s,
  match cls with
  | Example.Broken =>
      (Exc (OtherError "ValueError"), <["MARK" := PyBool true]> s)
  | _ => Example.build_from_crawler cls c s
  end.

(** The pre-crawler hook of [Early] leaves a mark before it raises. *)
Definition update_pre_crawler_settings (cls : Example.Cls)
    : option (Effect unit) :=
  match cls with
  | Example.Early =>
      Some (λ s, (Exc (OtherError "RuntimeError"),
                  <["MARK" := PyBool true]> s))
  | _ => Example.update_pre_crawler_settings cls
  end.

Definition load_settings : M unit Example.Instance unit :=
  load_settings spec_build_component_list Example.load_object
    build_from_crawler Example.update_settings.

Definition load_pre_crawler_settings : M unit Example.Instance unit :=
  load_pre_crawler_settings spec_build_component_list Example.load_object
    update_pre_crawler_settings.

End Faulty.

(** * Properties *)

(** Settles [calls_for] on an explicit list of calls. *)
Ltac calls_for_explicit :=
  split_and!; [reflexivity | simpl; try apply sublist_nil_l; reflexivity
              | repeat constructor].

(** Settles one way through a loop body: the calls it made, then what it
    left. *)
Ltac run_case cs :=
  exists cs;
  split; [by rewrite -?app_assoc
         |split; [calls_for_explicit|split_and!; by rewrite ?app_nil_r]].

(** Unfolds the statements of both phases down to the collaborators. *)
Ltac run :=
  cbv beta delta [load_settings load_pre_crawler_settings
    load_settings_body load_pre_crawler_settings_body
    try_except_NotConfigured call_build_component_list call_load_object
    call_build_from_crawler call_update_settings
    call_update_pre_crawler_settings addons_append logger_warning
    logger_info_enabled disabled raise getitem mbind M_bind mret M_ret];
  simpl.

Section properties.
Context {Crawler AddonCls Addon : Type}.
Variable build_component_list : option PyVal → Res (list string).
Variable load_object : string → Res AddonCls.
Variable build_from_crawler : AddonCls → Crawler → Effect Addon.
Variable update_settings : Addon → option (Effect unit).
Variable update_pre_crawler_settings : AddonCls → option (Effect unit).

#[local] Abbreviation World := (World Crawler Addon).
#[local] Abbreviation M := (M Crawler Addon).
#[local] Abbreviation load_settings_body :=
  (load_settings_body load_object build_from_crawler update_settings).
#[local] Abbreviation load_settings :=
  (load_settings build_component_list load_object build_from_crawler
     update_settings).
#[local] Abbreviation load_pre_crawler_settings_body :=
  (load_pre_crawler_settings_body (Crawler:=Crawler) (Addon:=Addon)
     load_object update_pre_crawler_settings).
#[local] Abbreviation load_pre_crawler_settings :=
  (load_pre_crawler_settings (Crawler:=Crawler) (Addon:=Addon)
     build_component_list load_object update_pre_crawler_settings).

(** ** The loop *)

Lemma for_each_app (body : string → M unit) (l1 l2 : list string) (w : World) :
  for_each (l1 ++ l2) body w =
  match for_each l1 body w with
  | (Ret _, w') => for_each l2 body w'
  | (Exc e, w') => (Exc e, w')
  end.
Proof.
  revert w. induction l1 as [|x l1 IH]; intros w; simpl; [done|].
  unfold mbind, M_bind. destruct (body x w) as [[[]|e] w1]; [apply IH|done].
Qed.

Lemma for_each_cons (body : string → M unit) x l (w : World) :
  for_each (x :: l) body w =
  match body x w with
  | (Ret _, w') => for_each l body w'
  | (Exc e, w') => (Exc e, w')
  end.
Proof. reflexivity. Qed.

(** A relation between worlds that every run of the body respects is
    respected by the loop. *)
Lemma for_each_preserves (R : World → World → Prop) (body : string → M unit)
    (l : list string) :
  (∀ w, R w w) →
  (∀ w1 w2 w3, R w1 w2 → R w2 w3 → R w1 w3) →
  (∀ x w, x ∈ l → R w (body x w).2) →
  ∀ w, R w (for_each l body w).2.
Proof.
  intros Hrefl Htrans. induction l as [|x l IH]; intros Hbody w; [apply Hrefl|].
  rewrite for_each_cons.
  pose proof (Hbody x w (list_elem_of_here _ _)) as Hx.
  destruct (body x w) as [[[]|e] w1]; simpl in *; [|done].
  eapply Htrans; [exact Hx|]. apply IH. intros y w' Hy. apply Hbody.
  by apply list_elem_of_further.
Qed.

(** ** One identifier *)

(** What the phase does once the resolver has answered. *)
Lemma load_settings_resolved (w : World) (l : list string) :
  build_component_list (settings w !! "ADDONS") = Ret l →
  load_settings w =
  match for_each l load_settings_body (resolved w) with
  | (Ret _, w') => (Ret tt, emit (Info (addons (manager w'))) w')
  | (Exc e, w') => (Exc e, w')
  end.
Proof. intros Hl. run. rewrite Hl. reflexivity. Qed.

Lemma load_settings_unresolved (w : World) (e : exn) :
  build_component_list (settings w !! "ADDONS") = Exc e →
  load_settings w = (Exc e, resolved w).
Proof. intros He. run. by rewrite He. Qed.

Lemma load_pre_crawler_settings_resolved (w : World) (l : list string) :
  build_component_list (settings w !! "ADDONS") = Ret l →
  load_pre_crawler_settings w =
  for_each l load_pre_crawler_settings_body (resolved w).
Proof. intros Hl. run. rewrite Hl. reflexivity. Qed.

(** The five ways through the body of [load_settings], by what the
    collaborators answer. *)
Lemma body_load_raises (c : string) (e : exn) (w : World) :
  load_object c = Exc e →
  load_settings_body c w =
  try_except_NotConfigured (raise e) (disabled c) (record (CallLoad c) w).
Proof. intros Hload. run. by rewrite Hload. Qed.

Lemma body_build_raises (c : string) cls (e : exn) s' (w : World) :
  load_object c = Ret cls →
  build_from_crawler cls (crawler (manager w)) (settings w) = (Exc e, s') →
  load_settings_body c w =
  try_except_NotConfigured (raise e) (disabled c)
    (set_settings s' (record (CallBuild c) (record (CallLoad c) w))).
Proof. intros Hload Hbuild. run. rewrite Hload. simpl. by rewrite Hbuild. Qed.

Lemma body_no_hook (c : string) cls addon s' (w : World) :
  load_object c = Ret cls →
  build_from_crawler cls (crawler (manager w)) (settings w) = (Ret addon, s') →
  update_settings addon = None →
  load_settings_body c w =
  (Ret tt, set_addons (addons (manager w) ++ [addon])
             (set_settings s' (record (CallBuild c) (record (CallLoad c) w)))).
Proof.
  intros Hload Hbuild Hhook. run. rewrite Hload. simpl. rewrite Hbuild. simpl.
  by rewrite Hhook.
Qed.

Lemma body_hook_returns (c : string) cls addon s' hook s'' (w : World) :
  load_object c = Ret cls →
  build_from_crawler cls (crawler (manager w)) (settings w) = (Ret addon, s') →
  update_settings addon = Some hook →
  hook s' = (Ret tt, s'') →
  load_settings_body c w =
  (Ret tt, set_addons (addons (manager w) ++ [addon])
             (set_settings s''
                (record (CallUpdateSettings c s')
                   (record (CallBuild c) (record (CallLoad c) w))))).
Proof.
  intros Hload Hbuild Hhook Hrun. run. rewrite Hload. simpl. rewrite Hbuild.
  simpl. rewrite Hhook. simpl. by rewrite Hrun.
Qed.

Lemma body_hook_raises (c : string) cls addon s' hook (e : exn) s''
    (w : World) :
  load_object c = Ret cls →
  build_from_crawler cls (crawler (manager w)) (settings w) = (Ret addon, s') →
  update_settings addon = Some hook →
  hook s' = (Exc e, s'') →
  load_settings_body c w =
  try_except_NotConfigured (raise e) (disabled c)
    (set_settings s''
       (record (CallUpdateSettings c s')
          (record (CallBuild c) (record (CallLoad c) w)))).
Proof.
  intros Hload Hbuild Hhook Hrun. run. rewrite Hload. simpl. rewrite Hbuild.
  simpl. rewrite Hhook. simpl. by rewrite Hrun.
Qed.

(** The [except] clause catches [NotConfigured] and nothing else. *)
Lemma caught (c : string) (args : list PyVal) (w : World) :
  ∃ w' : World,
    try_except_NotConfigured (raise (NotConfigured args)) (disabled c) w
      = (Ret tt, w') ∧
    settings w' = settings w ∧ manager w' = manager w ∧
    log w' = log w ++ disabled_log c args ∧ calls w' = calls w.
Proof.
  destruct args as [|eargs args]; eexists; (split; [reflexivity|]); simpl;
    by rewrite ?app_nil_r.
Qed.

Lemma not_caught (c : string) (name : string) (w : World) :
  try_except_NotConfigured (raise (OtherError name)) (disabled c) w
    = (Exc (OtherError name), w).
Proof. reflexivity. Qed.

(** The phase from the identifier at which the loop stands. *)
Lemma load_settings_from (w0 w w' : World) (pre rest : list string)
    (c : string) :
  build_component_list (settings w0 !! "ADDONS") = Ret (pre ++ c :: rest) →
  for_each pre load_settings_body (resolved w0) = (Ret tt, w) →
  load_settings_body c w = (Ret tt, w') →
  load_settings w0 =
    (for_each rest load_settings_body ;; logger_info_enabled) w'.
Proof.
  intros Hl Hpre Hbody.
  rewrite (load_settings_resolved _ _ Hl) for_each_app Hpre for_each_cons
    Hbody.
  unfold mbind, M_bind.
  by destruct (for_each rest load_settings_body w') as [[[]|e] w''].
Qed.

Lemma load_settings_aborts (w0 w w' : World) (pre rest : list string)
    (c : string) (e : exn) :
  build_component_list (settings w0 !! "ADDONS") = Ret (pre ++ c :: rest) →
  for_each pre load_settings_body (resolved w0) = (Ret tt, w) →
  load_settings_body c w = (Exc e, w') →
  load_settings w0 = (Exc e, w').
Proof.
  intros Hl Hpre Hbody.
  by rewrite (load_settings_resolved _ _ Hl) for_each_app Hpre for_each_cons
    Hbody.
Qed.

Lemma then_info_returns (rest : list string) (w : World) :
  (for_each rest load_settings_body w).1 = Ret tt →
  ((for_each rest load_settings_body ;; logger_info_enabled) w).1 = Ret tt.
Proof.
  unfold mbind, M_bind.
  by destruct (for_each rest load_settings_body w) as [[[]|e] w''].
Qed.

(** C1. In [load_settings], when the construction of the add-on for an
    identifier raises [NotConfigured], the loop body returns normally, the
    list of active add-ons is as it was, a warning carrying [e.args[0]] is
    logged exactly when [e.args] is not empty, and the identifiers after
    it are processed from there: the phase ends as the rest of the loop
    does, and normally when the rest raises nothing. *)
Theorem C1_not_configured_at_construction_is_isolated
    (w0 w : World) (pre rest : list string) (clspath : string)
    (cls : AddonCls) (args : list PyVal) (s' : Settings) :
  build_component_list (settings w0 !! "ADDONS")
    = Ret (pre ++ clspath :: rest) →
  for_each pre load_settings_body (resolved w0) = (Ret tt, w) →
  load_object clspath = Ret cls →
  build_from_crawler cls (crawler (manager w)) (settings w)
    = (Exc (NotConfigured args), s') →
  ∃ w' : World,
    load_settings_body clspath w = (Ret tt, w') ∧
    addons (manager w') = addons (manager w) ∧
    log w' = log w ++ disabled_log clspath args ∧
    calls w' = calls w ++ [CallLoad clspath; CallBuild clspath] ∧
    settings w' = s' ∧
    load_settings w0 =
      (for_each rest load_settings_body ;; logger_info_enabled) w' ∧
    ((for_each rest load_settings_body w').1 = Ret tt →
     (load_settings w0).1 = Ret tt).
Proof.
  intros Hl Hpre Hload Hbuild.
  pose proof (body_build_raises _ _ _ _ w Hload Hbuild) as Hbody.
  destruct (caught clspath args
    (set_settings s' (record (CallBuild clspath) (record (CallLoad clspath) w))))
    as (w' & Hcaught & Hs & Hm & Hlog & Hcalls).
  rewrite Hcaught in Hbody.
  pose proof (load_settings_from _ _ _ _ _ _ Hl Hpre Hbody) as Hphase.
  exists w'. split_and!; try done.
  - by rewrite Hm.
  - rewrite Hcalls /= -app_assoc //.
  - rewrite Hphase. apply then_info_returns.
Qed.

(** ** What a run of the loop amounts to *)

#[local] Abbreviation after2 :=
  (settings_after load_object build_from_crawler update_settings).
#[local] Abbreviation after1 :=
  (settings_after_pre load_object update_pre_crawler_settings).
#[local] Abbreviation activated2 :=
  (activated load_object build_from_crawler update_settings).
#[local] Abbreviation hooks2 :=
  (calls_update_settings load_object build_from_crawler update_settings).
#[local] Abbreviation hooks1 :=
  (calls_update_pre_crawler_settings load_object update_pre_crawler_settings).

Lemma load_settings_body_run (c : string) (w : World) :
  ∃ cs,
    calls (load_settings_body c w).2 = calls w ++ cs ∧
    calls_for c cs ∧
    hooked cs
      = (if hooks2 (crawler (manager w)) (settings w) c then [c] else []) ∧
    settings (load_settings_body c w).2
      = after2 (crawler (manager w)) (settings w) c ∧
    crawler (manager (load_settings_body c w).2) = crawler (manager w) ∧
    addons (manager (load_settings_body c w).2)
      = addons (manager w)
        ++ option_list (activated2 (crawler (manager w)) (settings w) c).
Proof.
  rewrite /settings_after /activated /calls_update_settings. run.
  destruct (load_object c) as [cls|[[|a args]|name]]; simpl;
    try (run_case [CallLoad c]).
  destruct (build_from_crawler cls (crawler (manager w)) (settings w))
    as [[addon|[[|a args]|name]] s']; simpl;
    try (run_case [CallLoad c; CallBuild c]).
  destruct (update_settings addon) as [hook|]; simpl;
    [|run_case [CallLoad c; CallBuild c]].
  destruct (hook s') as [[[]|[[|a args]|name]] s'']; simpl;
    run_case [CallLoad c; CallBuild c; CallUpdateSettings c s'].
Qed.

Lemma for_each_load_settings_run (l : list string) (w : World) :
  ∃ (ids : list string) (cs : list Call),
    calls (for_each l load_settings_body w).2 = calls w ++ cs ∧
    processes ids cs ∧
    ids `prefix_of` l ∧
    ((for_each l load_settings_body w).1 = Ret tt → ids = l) ∧
    hooked cs = hooked_along load_object build_from_crawler update_settings
                  (crawler (manager w)) (settings w) ids ∧
    settings (for_each l load_settings_body w).2
      = foldl (after2 (crawler (manager w))) (settings w) ids ∧
    crawler (manager (for_each l load_settings_body w).2)
      = crawler (manager w) ∧
    addons (manager (for_each l load_settings_body w).2)
      = addons (manager w)
        ++ activated_along load_object build_from_crawler update_settings
             (crawler (manager w)) (settings w) ids ∧
    (∀ e, (for_each l load_settings_body w).1 = Exc e →
       ∃ pre x post w1,
         l = pre ++ x :: post ∧ ids = pre ++ [x] ∧
         for_each pre load_settings_body w = (Ret tt, w1) ∧
         (load_settings_body x w1).1 = Exc e).
Proof.
  revert w. induction l as [|x l IH]; intros w.
  - exists [], [].
    split_and!; try done; try (by rewrite app_nil_r); by exists [].
  - rewrite for_each_cons.
    destruct (load_settings_body_run x w)
      as (cs & Hcs & Hfor & Hh & Hs & Hc & Ha).
    destruct (load_settings_body x w) as [[[]|e] w1] eqn:Hbody; simpl in *.
    + destruct (IH w1) as (ids & cs' & Hcs' & (chunks & -> & Hchunks) & Hpre
                           & Hall & Hh' & Hs' & Hc' & Ha' & Hexc).
      rewrite Hc Hs in Hh' Hs' Hc' Ha'.
      exists (x :: ids), (cs ++ concat chunks). split_and!.
      * by rewrite Hcs' Hcs app_assoc.
      * exists (cs :: chunks). split; [done|by constructor].
      * by apply prefix_cons.
      * intros Hret. by rewrite Hall.
      * rewrite (omap_app _ cs (concat chunks)
                   : hooked (cs ++ concat chunks)
                     = hooked cs ++ hooked (concat chunks)).
        by rewrite Hh Hh'.
      * done.
      * done.
      * by rewrite Ha' Ha -app_assoc.
      * intros e He. destruct (Hexc e He) as (pre & y & post & w2 & -> & ->
                                              & Hrun & Hy).
        exists (x :: pre), y, post, w2. split_and!; [done..| |done].
        by rewrite for_each_cons Hbody.
    + exists [x], cs. split_and!; try done.
      * exists [cs]. split; [by rewrite /= app_nil_r|].
        constructor; [done|constructor].
      * by apply prefix_cons, prefix_nil.
      * by rewrite /= app_nil_r.
      * by rewrite /= app_nil_r.
      * intros e' [= <-]. exists [], x, l, w. by rewrite Hbody.
Qed.

Lemma load_pre_crawler_settings_body_run (c : string) (w : World) :
  ∃ cs,
    calls (load_pre_crawler_settings_body c w).2 = calls w ++ cs ∧
    calls_for c cs ∧
    hooked cs = (if hooks1 c then [c] else []) ∧
    settings (load_pre_crawler_settings_body c w).2 = after1 (settings w) c.
Proof.
  rewrite /settings_after_pre /calls_update_pre_crawler_settings. run.
  destruct (load_object c) as [cls|e]; simpl; [|run_case [CallLoad c]].
  destruct (update_pre_crawler_settings cls) as [hook|]; simpl;
    [|run_case [CallLoad c]].
  destruct (hook (settings w)) as [[[]|e] s']; simpl;
    run_case [CallLoad c; CallUpdatePre c (settings w)].
Qed.

Lemma for_each_load_pre_crawler_settings_run (l : list string) (w : World) :
  ∃ (ids : list string) (cs : list Call),
    calls (for_each l load_pre_crawler_settings_body w).2 = calls w ++ cs ∧
    processes ids cs ∧
    ids `prefix_of` l ∧
    ((for_each l load_pre_crawler_settings_body w).1 = Ret tt → ids = l) ∧
    hooked cs = List.filter hooks1 ids ∧
    settings (for_each l load_pre_crawler_settings_body w).2
      = foldl after1 (settings w) ids ∧
    (∀ e, (for_each l load_pre_crawler_settings_body w).1 = Exc e →
       ∃ pre x post w1,
         l = pre ++ x :: post ∧ ids = pre ++ [x] ∧
         for_each pre load_pre_crawler_settings_body w = (Ret tt, w1) ∧
         (load_pre_crawler_settings_body x w1).1 = Exc e).
Proof.
  revert w. induction l as [|x l IH]; intros w.
  - exists [], [].
    split_and!; try done; try (by rewrite app_nil_r); by exists [].
  - rewrite for_each_cons.
    destruct (load_pre_crawler_settings_body_run x w)
      as (cs & Hcs & Hfor & Hh & Hs).
    destruct (load_pre_crawler_settings_body x w) as [[[]|e] w1] eqn:Hbody;
      simpl in *.
    + destruct (IH w1) as (ids & cs' & Hcs' & (chunks & -> & Hchunks) & Hpre
                           & Hall & Hh' & Hs' & Hexc).
      rewrite Hs in Hs'.
      exists (x :: ids), (cs ++ concat chunks). split_and!.
      * by rewrite Hcs' Hcs app_assoc.
      * exists (cs :: chunks). split; [done|by constructor].
      * by apply prefix_cons.
      * intros Hret. by rewrite Hall.
      * rewrite (omap_app _ cs (concat chunks)
                   : hooked (cs ++ concat chunks)
                     = hooked cs ++ hooked (concat chunks)).
        rewrite Hh Hh' /=. by destruct (hooks1 x).
      * done.
      * intros e He. destruct (Hexc e He) as (pre & y & post & w2 & -> & ->
                                              & Hrun & Hy).
        exists (x :: pre), y, post, w2. split_and!; [done..| |done].
        by rewrite for_each_cons Hbody.
    + exists [x], cs. split_and!; try done.
      * exists [cs]. split; [by rewrite /= app_nil_r|].
        constructor; [done|constructor].
      * by apply prefix_cons, prefix_nil.
      * intros e' [= <-]. exists [], x, l, w. by rewrite Hbody.
Qed.

(** A name that every step leaves alone reads the same after the steps. *)
Lemma foldl_lookup_preserved (step : Settings → string → Settings)
    (K : string) (l : list string) (s : Settings) :
  (∀ x s', x ∈ l → step s' x !! K = s' !! K) →
  foldl step s l !! K = s !! K.
Proof.
  revert s. induction l as [|x l IH]; intros s Hstep; [done|].
  rewrite /= IH.
  - intros y s' Hy. apply Hstep. by apply list_elem_of_further.
  - apply Hstep. apply list_elem_of_here.
Qed.

(** What [load_settings] does at an identifier that fails with another
    exception than [NotConfigured], after the identifiers [pre]. *)
Lemma load_settings_aborts_at
    (w0 w : World) (pre post : list string) (clspath : string)
    (name : string) :
  build_component_list (settings w0 !! "ADDONS")
    = Ret (pre ++ clspath :: post) →
  for_each pre load_settings_body (resolved w0) = (Ret tt, w) →
  (load_object clspath = Exc (OtherError name)
   ∨ (∃ cls s',
        load_object clspath = Ret cls ∧
        build_from_crawler cls (crawler (manager w)) (settings w)
          = (Exc (OtherError name), s'))
   ∨ (∃ cls addon s' hook s'',
        load_object clspath = Ret cls ∧
        build_from_crawler cls (crawler (manager w)) (settings w)
          = (Ret addon, s') ∧
        update_settings addon = Some hook ∧
        hook s' = (Exc (OtherError name), s''))) →
  ∃ (w' : World) (cs : list Call),
    load_settings w0 = (Exc (OtherError name), w') ∧
    addons (manager w') = addons (manager w) ∧
    log w' = log w ∧
    calls w' = calls w ++ cs ∧ calls_for clspath cs.
Proof.
  intros Hl Hpre [Hload|[(cls & s' & Hload & Hbuild)
    |(cls & addon & s' & hook & s'' & Hload & Hbuild & Hhook & Hrun)]].
  - pose proof (body_load_raises _ _ w Hload) as Hbody.
    rewrite not_caught in Hbody.
    eexists _, [CallLoad clspath].
    split; [exact (load_settings_aborts _ _ _ _ _ _ _ Hl Hpre Hbody)|].
    split_and!; [done..|calls_for_explicit].
  - pose proof (body_build_raises _ _ _ _ w Hload Hbuild) as Hbody.
    rewrite not_caught in Hbody.
    eexists _, [CallLoad clspath; CallBuild clspath].
    split; [exact (load_settings_aborts _ _ _ _ _ _ _ Hl Hpre Hbody)|].
    split_and!; [done|done|by rewrite /= -app_assoc|calls_for_explicit].
  - pose proof (body_hook_raises _ _ _ _ _ _ _ w Hload Hbuild Hhook Hrun)
      as Hbody.
    rewrite not_caught in Hbody.
    eexists _, [CallLoad clspath; CallBuild clspath;
                CallUpdateSettings clspath s'].
    split; [exact (load_settings_aborts _ _ _ _ _ _ _ Hl Hpre Hbody)|].
    split_and!; [done|done|by rewrite /= -!app_assoc|calls_for_explicit].
Qed.

(** C2. In [load_settings], when [load_object], the constructor or
    [update_settings] raises an exception other than [NotConfigured] for an
    identifier, the phase raises that exception: no later identifier is
    processed (the calls made after the identifiers before it are all for
    the failing one), nothing is logged, and the active add-ons are what
    the list held when the phase began followed by exactly the instances
    activated for the identifiers before the failing one, in their
    order. *)
Theorem C2_other_errors_abort_the_phase
    (w0 w : World) (pre post : list string) (clspath : string)
    (name : string) :
  build_component_list (settings w0 !! "ADDONS")
    = Ret (pre ++ clspath :: post) →
  for_each pre load_settings_body (resolved w0) = (Ret tt, w) →
  (load_object clspath = Exc (OtherError name)
   ∨ (∃ cls s',
        load_object clspath = Ret cls ∧
        build_from_crawler cls (crawler (manager w)) (settings w)
          = (Exc (OtherError name), s'))
   ∨ (∃ cls addon s' hook s'',
        load_object clspath = Ret cls ∧
        build_from_crawler cls (crawler (manager w)) (settings w)
          = (Ret addon, s') ∧
        update_settings addon = Some hook ∧
        hook s' = (Exc (OtherError name), s''))) →
  ∃ (w' : World) (cs : list Call),
    load_settings w0 = (Exc (OtherError name), w') ∧
    addons (manager w') = addons (manager w) ∧
    log w' = log w ∧
    calls w' = calls w ++ cs ∧ calls_for clspath cs ∧
    addons (manager w')
      = addons (manager w0)
        ++ activated_along load_object build_from_crawler update_settings
             (crawler (manager w0)) (settings w0) pre.
Proof.
  intros Hl Hpre Hfail.
  destruct (load_settings_aborts_at w0 w pre post clspath name Hl Hpre Hfail)
    as (w' & cs & Hrun & Ha & Hlog & Hcalls & Hfor).
  exists w', cs. split_and!; try done.
  destruct (for_each_load_settings_run pre (resolved w0))
    as (ids & cs' & _ & _ & _ & Hall & _ & _ & _ & Hact & _).
  rewrite Hpre /= in Hall Hact. by rewrite Ha Hact (Hall eq_refl).
Qed.

(** C3, as the code has it. In [load_settings] the [try] block encloses
    [load_object], the construction and [update_settings]: a
    [NotConfigured] raised by any of the three is caught, the add-on is not
    appended and a warning is logged when the exception has arguments. A
    [NotConfigured] raised by [load_object] is thus caught like the others;
    [load_object] raising anything else aborts the phase, and so does
    [build_component_list] raising anything at all, which is called outside
    the [try] block. *)
Theorem C3_not_configured_is_caught_at_load_too
    (w : World) (clspath : string) :
  (∀ args, load_object clspath = Exc (NotConfigured args) →
     ∃ w' : World,
       load_settings_body clspath w = (Ret tt, w') ∧
       settings w' = settings w ∧ manager w' = manager w ∧
       log w' = log w ++ disabled_log clspath args ∧
       calls w' = calls w ++ [CallLoad clspath]) ∧
  (∀ cls args s',
     load_object clspath = Ret cls →
     build_from_crawler cls (crawler (manager w)) (settings w)
       = (Exc (NotConfigured args), s') →
     ∃ w' : World,
       load_settings_body clspath w = (Ret tt, w') ∧
       settings w' = s' ∧ manager w' = manager w ∧
       log w' = log w ++ disabled_log clspath args) ∧
  (∀ cls addon s' hook args s'',
     load_object clspath = Ret cls →
     build_from_crawler cls (crawler (manager w)) (settings w)
       = (Ret addon, s') →
     update_settings addon = Some hook →
     hook s' = (Exc (NotConfigured args), s'') →
     ∃ w' : World,
       load_settings_body clspath w = (Ret tt, w') ∧
       settings w' = s'' ∧ manager w' = manager w ∧
       log w' = log w ++ disabled_log clspath args) ∧
  (∀ name, load_object clspath = Exc (OtherError name) →
     load_settings_body clspath w
       = (Exc (OtherError name), record (CallLoad clspath) w)) ∧
  (∀ e, build_component_list (settings w !! "ADDONS") = Exc e →
     load_settings w = (Exc e, resolved w)).
Proof.
  split_and!.
  - intros args Hload. rewrite (body_load_raises _ _ w Hload).
    destruct (caught clspath args (record (CallLoad clspath) w))
      as (w' & -> & Hs & Hm & Hlog & Hcalls).
    by exists w'.
  - intros cls args s' Hload Hbuild.
    rewrite (body_build_raises _ _ _ _ w Hload Hbuild).
    match goal with |- context [try_except_NotConfigured _ _ ?w1] =>
      destruct (caught clspath args w1) as (w' & -> & Hs & Hm & Hlog & Hcalls)
    end.
    by exists w'.
  - intros cls addon s' hook args s'' Hload Hbuild Hhook Hrun.
    rewrite (body_hook_raises _ _ _ _ _ _ _ w Hload Hbuild Hhook Hrun).
    match goal with |- context [try_except_NotConfigured _ _ ?w1] =>
      destruct (caught clspath args w1) as (w' & -> & Hs & Hm & Hlog & Hcalls)
    end.
    by exists w'.
  - intros name Hload. by rewrite (body_load_raises _ _ w Hload).
  - intros e He. run. by rewrite He.
Qed.

(** C8. In [load_settings], once the instance is constructed,
    [update_settings] is called with the settings exactly when the instance
    has it. Without the hook, or when the hook returns, the instance is
    appended to the active add-ons; when the hook raises [NotConfigured]
    the body still returns but the instance is not appended; what the hook
    did to the settings stays in every case. *)
Theorem C8_update_settings_called_iff_present
    (w : World) (clspath : string) (cls : AddonCls) (addon : Addon)
    (s' : Settings) :
  load_object clspath = Ret cls →
  build_from_crawler cls (crawler (manager w)) (settings w)
    = (Ret addon, s') →
  let r := load_settings_body clspath w in
  match update_settings addon with
  | None =>
      r.1 = Ret tt ∧
      calls r.2 = calls w ++ [CallLoad clspath; CallBuild clspath] ∧
      settings r.2 = s' ∧
      addons (manager r.2) = addons (manager w) ++ [addon]
  | Some hook =>
      calls r.2 = calls w ++ [CallLoad clspath; CallBuild clspath;
                              CallUpdateSettings clspath s'] ∧
      settings r.2 = (hook s').2 ∧
      match (hook s').1 with
      | Ret _ =>
          r.1 = Ret tt ∧
          addons (manager r.2) = addons (manager w) ++ [addon] ∧
          log r.2 = log w
      | Exc (NotConfigured args) =>
          r.1 = Ret tt ∧
          addons (manager r.2) = addons (manager w) ∧
          log r.2 = log w ++ disabled_log clspath args
      | Exc (OtherError name) =>
          r.1 = Exc (OtherError name) ∧
          addons (manager r.2) = addons (manager w) ∧
          log r.2 = log w
      end
  end.
Proof.
  intros Hload Hbuild r. subst r.
  destruct (update_settings addon) as [hook|] eqn:Hhook.
  - destruct (hook s') as [[[]|[args|name]] s''] eqn:Hrun; simpl.
    + rewrite (body_hook_returns _ _ _ _ _ _ w Hload Hbuild Hhook Hrun) /=.
      by rewrite -!app_assoc.
    + rewrite (body_hook_raises _ _ _ _ _ _ _ w Hload Hbuild Hhook Hrun).
      match goal with |- context [try_except_NotConfigured _ _ ?w1] =>
        destruct (caught clspath args w1)
          as (w' & -> & Hs & Hm & Hlog & Hcalls)
      end.
      simpl. rewrite Hcalls Hs Hm Hlog /=. by rewrite -!app_assoc.
    + rewrite (body_hook_raises _ _ _ _ _ _ _ w Hload Hbuild Hhook Hrun).
      rewrite not_caught /=. by rewrite -!app_assoc.
  - rewrite (body_no_hook _ _ _ _ w Hload Hbuild Hhook) /=.
    by rewrite -!app_assoc.
Qed.

(** ** [load_pre_crawler_settings], one identifier *)

Lemma pre_body_load_raises (c : string) (e : exn) (w : World) :
  load_object c = Exc e →
  load_pre_crawler_settings_body c w = (Exc e, record (CallLoad c) w).
Proof. intros Hload. run. by rewrite Hload. Qed.

Lemma pre_body_no_hook (c : string) cls (w : World) :
  load_object c = Ret cls →
  update_pre_crawler_settings cls = None →
  load_pre_crawler_settings_body c w = (Ret tt, record (CallLoad c) w).
Proof. intros Hload Hhook. run. rewrite Hload. simpl. by rewrite Hhook. Qed.

Lemma pre_body_hook (c : string) cls hook (r : Res unit) s' (w : World) :
  load_object c = Ret cls →
  update_pre_crawler_settings cls = Some hook →
  hook (settings w) = (r, s') →
  load_pre_crawler_settings_body c w =
  (r, set_settings s'
        (record (CallUpdatePre c (settings w)) (record (CallLoad c) w))).
Proof.
  intros Hload Hhook Hrun. run. rewrite Hload. simpl. rewrite Hhook. simpl.
  by rewrite Hrun.
Qed.

Lemma load_pre_crawler_settings_aborts (w0 w w' : World)
    (pre rest : list string) (c : string) (e : exn) :
  build_component_list (settings w0 !! "ADDONS") = Ret (pre ++ c :: rest) →
  for_each pre load_pre_crawler_settings_body (resolved w0) = (Ret tt, w) →
  load_pre_crawler_settings_body c w = (Exc e, w') →
  load_pre_crawler_settings w0 = (Exc e, w').
Proof.
  intros Hl Hpre Hbody.
  by rewrite (load_pre_crawler_settings_resolved _ _ Hl) for_each_app Hpre
    for_each_cons Hbody.
Qed.

(** C6. [load_pre_crawler_settings] has no [try] block: whatever
    [load_object] or [update_pre_crawler_settings] raises for an
    identifier, [NotConfigured] included, is raised by the phase, and the
    calls made after the identifiers before it are all for the failing
    one. *)
Theorem C6_pre_crawler_phase_catches_nothing
    (w0 w : World) (pre post : list string) (clspath : string) (e : exn) :
  build_component_list (settings w0 !! "ADDONS")
    = Ret (pre ++ clspath :: post) →
  for_each pre load_pre_crawler_settings_body (resolved w0) = (Ret tt, w) →
  (load_object clspath = Exc e
   ∨ (∃ cls hook s',
        load_object clspath = Ret cls ∧
        update_pre_crawler_settings cls = Some hook ∧
        hook (settings w) = (Exc e, s'))) →
  ∃ (w' : World) (cs : list Call),
    load_pre_crawler_settings w0 = (Exc e, w') ∧
    calls w' = calls w ++ cs ∧ calls_for clspath cs.
Proof.
  intros Hl Hpre [Hload|(cls & hook & s' & Hload & Hhook & Hrun)].
  - pose proof (pre_body_load_raises _ _ w Hload) as Hbody.
    eexists _, [CallLoad clspath].
    split; [exact (load_pre_crawler_settings_aborts _ _ _ _ _ _ _
                     Hl Hpre Hbody)|].
    split; [done|calls_for_explicit].
  - pose proof (pre_body_hook _ _ _ _ _ w Hload Hhook Hrun) as Hbody.
    eexists _, [CallLoad clspath; CallUpdatePre clspath (settings w)].
    split; [exact (load_pre_crawler_settings_aborts _ _ _ _ _ _ _
                     Hl Hpre Hbody)|].
    split; [by rewrite /= -app_assoc|calls_for_explicit].
Qed.

(** ** Traces *)

Lemma loaded_app (cs1 cs2 : list Call) :
  loaded (cs1 ++ cs2) = loaded cs1 ++ loaded cs2.
Proof. apply omap_app. Qed.

Lemma hooked_app (cs1 cs2 : list Call) :
  hooked (cs1 ++ cs2) = hooked cs1 ++ hooked cs2.
Proof. apply omap_app. Qed.

Lemma processes_loaded_hooked (ids : list string) (cs : list Call) :
  processes ids cs → loaded cs = ids ∧ hooked cs `sublist_of` ids.
Proof.
  intros (chunks & -> & Hchunks).
  induction Hchunks as [|c chunk ids chunks (Hl & Hh & _) _ [IHl IHh]];
    simpl; [done|].
  rewrite loaded_app hooked_app Hl IHl. split; [done|].
  by apply (sublist_app (hooked chunk) [c] _ ids).
Qed.

Lemma load_settings_body_calls (c : string) (w : World) :
  ∃ cs, calls (load_settings_body c w).2 = calls w ++ cs ∧ calls_for c cs.
Proof.
  run.
  destruct (load_object c) as [cls|[[|a args]|name]]; simpl;
    try (exists [CallLoad c]; split; [done|calls_for_explicit]).
  destruct (build_from_crawler cls (crawler (manager w)) (settings w))
    as [[addon|[[|a args]|name]] s']; simpl;
    try (exists [CallLoad c; CallBuild c];
         split; [by rewrite -app_assoc|calls_for_explicit]).
  destruct (update_settings addon) as [hook|]; simpl;
    [|exists [CallLoad c; CallBuild c];
      split; [by rewrite -app_assoc|calls_for_explicit]].
  destruct (hook s') as [[[]|[[|a args]|name]] s'']; simpl;
    (exists [CallLoad c; CallBuild c; CallUpdateSettings c s'];
     split; [by rewrite -!app_assoc|calls_for_explicit]).
Qed.

Lemma load_pre_crawler_settings_body_calls (c : string) (w : World) :
  ∃ cs, calls (load_pre_crawler_settings_body c w).2 = calls w ++ cs ∧
        calls_for c cs.
Proof.
  run.
  destruct (load_object c) as [cls|e]; simpl;
    [|exists [CallLoad c]; split; [done|calls_for_explicit]].
  destruct (update_pre_crawler_settings cls) as [hook|]; simpl;
    [|exists [CallLoad c]; split; [done|calls_for_explicit]].
  destruct (hook (settings w)) as [[[]|e] s']; simpl;
    (exists [CallLoad c; CallUpdatePre c (settings w)];
     split; [by rewrite -!app_assoc|calls_for_explicit]).
Qed.

(** A loop whose body makes its calls for the identifier at hand processes
    a prefix of the list in order, and the whole list when it returns. *)
Lemma for_each_processes (body : string → M unit) :
  (∀ c w, ∃ cs, calls (body c w).2 = calls w ++ cs ∧ calls_for c cs) →
  ∀ (l : list string) (w : World),
  ∃ (ids : list string) (cs : list Call),
    calls (for_each l body w).2 = calls w ++ cs ∧
    processes ids cs ∧
    ids `prefix_of` l ∧
    ((for_each l body w).1 = Ret tt → ids = l).
Proof.
  intros Hbody l. induction l as [|x l IH]; intros w.
  - exists [], []. split_and!; [by rewrite app_nil_r|by exists []|done..].
  - rewrite for_each_cons. destruct (Hbody x w) as (cs & Hcs & Hfor).
    destruct (body x w) as [[[]|e] w1]; simpl in *.
    + destruct (IH w1) as (ids & cs' & Hcs' & (chunks & -> & Hchunks) & Hpre & Hall).
      exists (x :: ids), (cs ++ concat chunks). split_and!.
      * by rewrite Hcs' Hcs app_assoc.
      * exists (cs :: chunks). split; [done|by constructor].
      * by apply prefix_cons.
      * intros Hret. by rewrite Hall.
    + exists [x], cs. split_and!; [done| |by apply prefix_cons, prefix_nil|done].
      exists [cs]. split; [by rewrite /= app_nil_r|].
      constructor; [done|constructor].
Qed.

(** C4. With [l] the list [build_component_list] returns for
    [settings["ADDONS"]], either phase makes its calls identifier by
    identifier along [l]: the trace after the resolver call is that of
    processing a prefix of [l] in order (all of [l] when the phase
    returns), so [load_object] is called on these identifiers in that
    order, and the hooks invoked are exactly, and in that order, those of
    the processed identifiers that get to their hook: in
    [load_pre_crawler_settings] the ones whose class was loaded and has
    [update_pre_crawler_settings], in [load_settings] the ones whose
    constructor returned an instance that has [update_settings]. Run on the
    same settings, two phases that return have loaded the same sequence. *)
Theorem C4_both_phases_follow_resolver_order (w : World) (l : list string) :
  build_component_list (settings w !! "ADDONS") = Ret l →
  ∃ (ids1 ids2 : list string) (cs1 cs2 : list Call),
    calls (load_pre_crawler_settings w).2 = calls (resolved w) ++ cs1 ∧
    calls (load_settings w).2 = calls (resolved w) ++ cs2 ∧
    processes ids1 cs1 ∧ processes ids2 cs2 ∧
    ids1 `prefix_of` l ∧ ids2 `prefix_of` l ∧
    ((load_pre_crawler_settings w).1 = Ret tt → ids1 = l) ∧
    ((load_settings w).1 = Ret tt → ids2 = l) ∧
    loaded cs1 = ids1 ∧ loaded cs2 = ids2 ∧
    hooked cs1 `sublist_of` l ∧ hooked cs2 `sublist_of` l ∧
    ((load_pre_crawler_settings w).1 = Ret tt →
     (load_settings w).1 = Ret tt → loaded cs1 = loaded cs2) ∧
    hooked cs1
      = List.filter
          (calls_update_pre_crawler_settings load_object
             update_pre_crawler_settings) ids1 ∧
    hooked cs2
      = hooked_along load_object build_from_crawler update_settings
          (crawler (manager w)) (settings w) ids2.
Proof.
  intros Hl.
  destruct (for_each_load_pre_crawler_settings_run l (resolved w))
    as (ids1 & cs1 & Hcs1 & Hp1 & Hpre1 & Hall1 & Hhook1 & _).
  destruct (for_each_load_settings_run l (resolved w))
    as (ids2 & cs2 & Hcs2 & Hp2 & Hpre2 & Hall2 & Hhook2 & _).
  destruct (processes_loaded_hooked _ _ Hp1) as [Hl1 Hh1].
  destruct (processes_loaded_hooked _ _ Hp2) as [Hl2 Hh2].
  assert ((load_settings w).1 = Ret tt → ids2 = l) as Hall2'.
  { rewrite (load_settings_resolved _ _ Hl). intros Hret. apply Hall2.
    by destruct (for_each l load_settings_body (resolved w)) as [[[]|e] w']. }
  exists ids1, ids2, cs1, cs2. split_and!; try done.
  - by rewrite (load_pre_crawler_settings_resolved _ _ Hl).
  - rewrite (load_settings_resolved _ _ Hl) -Hcs2.
    by destruct (for_each l load_settings_body (resolved w)) as [[[]|e] w'].
  - by rewrite (load_pre_crawler_settings_resolved _ _ Hl).
  - destruct Hpre1 as [k ->]. by apply sublist_inserts_r.
  - destruct Hpre2 as [k ->]. by apply sublist_inserts_r.
  - rewrite (load_pre_crawler_settings_resolved _ _ Hl). intros H1 H2.
    by rewrite Hl1 Hl2 (Hall1 H1) (Hall2' H2).
Qed.

(** ** Frames *)

Lemma for_each_calls_grow (body : string → M unit) :
  (∀ c w, ∃ cs, calls (body c w).2 = calls w ++ cs ∧ calls_for c cs) →
  ∀ (l : list string) (w : World),
    calls w `prefix_of` calls (for_each l body w).2.
Proof.
  intros Hbody l w.
  destruct (for_each_processes body Hbody l w) as (ids & cs & -> & _).
  by apply prefix_app_r.
Qed.

Lemma load_pre_crawler_settings_body_frame (c : string) (w : World) :
  manager (load_pre_crawler_settings_body c w).2 = manager w ∧
  log (load_pre_crawler_settings_body c w).2 = log w ∧
  ∃ cs, calls (load_pre_crawler_settings_body c w).2 = calls w ++ cs ∧
        Forall (λ k, instance_call k = false) cs ∧
        (hooked cs = [] →
         settings (load_pre_crawler_settings_body c w).2 = settings w).
Proof.
  run.
  destruct (load_object c) as [cls|e]; simpl;
    [|split_and!; [done..|exists [CallLoad c]; by repeat constructor]].
  destruct (update_pre_crawler_settings cls) as [hook|]; simpl;
    [|split_and!; [done..|exists [CallLoad c]; by repeat constructor]].
  destruct (hook (settings w)) as [[[]|e] s']; simpl;
    (split_and!; [done..|]);
    exists [CallLoad c; CallUpdatePre c (settings w)];
    (split_and!; [by rewrite -app_assoc|by repeat constructor|done]).
Qed.

(** C7. [load_pre_crawler_settings] leaves the manager (its crawler and
    its list of active add-ons) and the log as they were, builds no
    instance and calls no [update_settings]: its calls are to the resolver,
    to [load_object] and to [update_pre_crawler_settings], and the settings
    change only if such a hook was called. *)
Theorem C7_pre_crawler_phase_frame (w : World) :
  let w' := (load_pre_crawler_settings w).2 in
  manager w' = manager w ∧
  log w' = log w ∧
  ∃ cs : list Call,
    calls w' = calls w ++ cs ∧
    Forall (λ k, instance_call k = false) cs ∧
    (hooked cs = [] → settings w' = settings w).
Proof.
  set (R := λ w1 w2 : World,
    manager w2 = manager w1 ∧ log w2 = log w1 ∧
    ∃ cs, calls w2 = calls w1 ++ cs ∧
          Forall (λ k, instance_call k = false) cs ∧
          (hooked cs = [] → settings w2 = settings w1)).
  assert (∀ l (w1 : World),
    R w1 (for_each l load_pre_crawler_settings_body w1).2) as Hloop.
  { intros l. apply for_each_preserves.
    - intros w1. split_and!; [done..|]. exists []. by rewrite app_nil_r.
    - intros w1 w2 w3 (Hm1 & Hl1 & cs1 & Hc1 & Hi1 & Hs1)
        (Hm2 & Hl2 & cs2 & Hc2 & Hi2 & Hs2).
      split_and!; [congruence..|]. exists (cs1 ++ cs2). split_and!.
      + by rewrite Hc2 Hc1 app_assoc.
      + by apply Forall_app.
      + rewrite hooked_app. intros [H1 H2]%app_eq_nil.
        by rewrite (Hs2 H2) (Hs1 H1).
    - intros x w1 _. apply load_pre_crawler_settings_body_frame. }
  simpl. run.
  destruct (build_component_list (settings w !! "ADDONS")) as [l|e]; simpl.
  - destruct (Hloop l (resolved w)) as (Hm & Hl & cs & Hc & Hi & Hs).
    split_and!; [done..|].
    exists (CallResolve (settings w !! "ADDONS") :: cs). split_and!.
    + by rewrite Hc /= -app_assoc.
    + by constructor.
    + done.
  - split_and!; [done..|].
    exists [CallResolve (settings w !! "ADDONS")]. by repeat constructor.
Qed.

(** ** The list of active add-ons *)

(** Two worlds that differ in that the second has the add-ons [a0] in
    front of its list (and in what was logged). *)
#[local] Abbreviation ahead a0 w1 w2 :=
  (settings w2 = settings w1 ∧
   crawler (manager w2) = crawler (manager w1) ∧
   addons (manager w2) = a0 ++ addons (manager w1) ∧
   calls w2 = calls w1).

Lemma load_settings_body_ahead (a0 : list Addon) (c : string)
    (w1 w2 : World) :
  ahead a0 w1 w2 →
  (load_settings_body c w2).1 = (load_settings_body c w1).1 ∧
  ahead a0 (load_settings_body c w1).2 (load_settings_body c w2).2.
Proof.
  destruct w1 as [s1 [c1 a1] l1 k1], w2 as [s2 [c2 a2] l2 k2]; simpl.
  intros (-> & -> & -> & ->). run.
  destruct (load_object c) as [cls|[[|a args]|name]]; simpl; [|done..].
  destruct (build_from_crawler cls c1 s1)
    as [[addon|[[|a args]|name]] s']; simpl; [|done..].
  destruct (update_settings addon) as [hook|]; simpl;
    [|by rewrite app_assoc].
  destruct (hook s') as [[[]|[[|a args]|name]] s'']; simpl; [|done..].
  by rewrite app_assoc.
Qed.

Lemma for_each_ahead (a0 : list Addon) (l : list string) (w1 w2 : World) :
  ahead a0 w1 w2 →
  (for_each l load_settings_body w2).1 = (for_each l load_settings_body w1).1 ∧
  ahead a0 (for_each l load_settings_body w1).2
           (for_each l load_settings_body w2).2.
Proof.
  revert w1 w2. induction l as [|x l IH]; intros w1 w2 Hw; [done|].
  rewrite !for_each_cons.
  destruct (load_settings_body_ahead a0 x w1 w2 Hw) as [Hr Hw'].
  destruct (load_settings_body x w1) as [[[]|e1] w1'],
    (load_settings_body x w2) as [[[]|e2] w2']; simpl in *; try done.
  by apply IH.
Qed.

Lemma load_settings_ahead (a0 : list Addon) (w1 w2 : World) :
  ahead a0 w1 w2 →
  (load_settings w2).1 = (load_settings w1).1 ∧
  ahead a0 (load_settings w1).2 (load_settings w2).2.
Proof.
  intros Hw. pose proof Hw as (Hs & Hc & Ha & Hk).
  destruct (build_component_list (settings w1 !! "ADDONS")) as [l|e] eqn:Hl.
  - rewrite (load_settings_resolved w1 l Hl) (load_settings_resolved w2 l);
      [by rewrite Hs|].
    destruct (for_each_ahead a0 l (resolved w1) (resolved w2)) as [Hr Hw'].
    { simpl. by rewrite Hk Hs. }
    destruct (for_each l load_settings_body (resolved w1)) as [[[]|e1] w1'],
      (for_each l load_settings_body (resolved w2)) as [[[]|e2] w2'];
      simpl in *; done.
  - rewrite (load_settings_unresolved w1 e Hl) (load_settings_unresolved w2 e);
      [by rewrite Hs|].
    simpl. by rewrite Hk Hs.
Qed.


(** ** Settings seen by the hooks *)

Lemma load_settings_calls_from (w0 w : World) (pre rest : list string)
    (c : string) :
  build_component_list (settings w0 !! "ADDONS") = Ret (pre ++ c :: rest) →
  for_each pre load_settings_body (resolved w0) = (Ret tt, w) →
  calls (load_settings_body c w).2 `prefix_of` calls (load_settings w0).2.
Proof.
  intros Hl Hpre.
  rewrite (load_settings_resolved _ _ Hl) for_each_app Hpre for_each_cons.
  destruct (load_settings_body c w) as [[[]|e] w1]; simpl; [|done].
  pose proof (for_each_calls_grow _ load_settings_body_calls rest w1) as Hgrow.
  by destruct (for_each rest load_settings_body w1) as [[[]|e] w2].
Qed.

Lemma load_pre_crawler_settings_calls_from (w0 w : World)
    (pre rest : list string) (c : string) :
  build_component_list (settings w0 !! "ADDONS") = Ret (pre ++ c :: rest) →
  for_each pre load_pre_crawler_settings_body (resolved w0) = (Ret tt, w) →
  calls (load_pre_crawler_settings_body c w).2
    `prefix_of` calls (load_pre_crawler_settings w0).2.
Proof.
  intros Hl Hpre.
  rewrite (load_pre_crawler_settings_resolved _ _ Hl) for_each_app Hpre
    for_each_cons.
  destruct (load_pre_crawler_settings_body c w) as [[[]|e] w1]; simpl;
    [|done].
  apply (for_each_calls_grow _ load_pre_crawler_settings_body_calls).
Qed.

Lemma body_hook_called (c : string) cls addon s' hook (w : World) :
  load_object c = Ret cls →
  build_from_crawler cls (crawler (manager w)) (settings w) = (Ret addon, s') →
  update_settings addon = Some hook →
  CallUpdateSettings c s' ∈ calls (load_settings_body c w).2.
Proof.
  intros Hload Hbuild Hhook.
  destruct (hook s') as [[[]|[args|name]] s''] eqn:Hrun.
  - rewrite (body_hook_returns _ _ _ _ _ _ w Hload Hbuild Hhook Hrun) /=.
    apply elem_of_app; right; constructor.
  - rewrite (body_hook_raises _ _ _ _ _ _ _ w Hload Hbuild Hhook Hrun).
    match goal with |- context [try_except_NotConfigured _ _ ?w1] =>
      destruct (caught c args w1) as (w' & -> & _ & _ & _ & Hcalls)
    end.
    rewrite /= Hcalls /=. apply elem_of_app; right; constructor.
  - rewrite (body_hook_raises _ _ _ _ _ _ _ w Hload Hbuild Hhook Hrun).
    rewrite not_caught /=. apply elem_of_app; right; constructor.
Qed.

Lemma pre_body_hook_called (c : string) cls hook (w : World) :
  load_object c = Ret cls →
  update_pre_crawler_settings cls = Some hook →
  CallUpdatePre c (settings w)
    ∈ calls (load_pre_crawler_settings_body c w).2.
Proof.
  intros Hload Hhook.
  destruct (hook (settings w)) as [r s'] eqn:Hrun.
  rewrite (pre_body_hook _ _ _ _ _ w Hload Hhook Hrun) /=.
  apply elem_of_app; right; constructor.
Qed.

(** C5. The hooks of one phase work on the same settings object, one
    after the other, and the manager leaves it alone in between. When the
    hook of [a] returns having left [v] under the name [K], and [b] comes
    later in the resolver's list, the hook of [b] is called with the
    settings [a] left as the add-ons in between went on to change them (and,
    in [load_settings], as the constructor of [b] then left them): they
    hold [v] under [K] when the code of the add-ons in between and the
    constructor of [b] leave [K] alone, whether those add-ons were
    activated or disabled. *)
Theorem C5_later_hook_sees_earlier_mutation
    (w0 w : World) (pre mid post : list string) (a b : string)
    (K : string) (v : PyVal) :
  build_component_list (settings w0 !! "ADDONS")
    = Ret (pre ++ a :: mid ++ b :: post) →
  (∀ clsA addonA sA hookA sA' clsB addonB sB hookB,
     for_each pre load_settings_body (resolved w0) = (Ret tt, w) →
     load_object a = Ret clsA →
     build_from_crawler clsA (crawler (manager w)) (settings w)
       = (Ret addonA, sA) →
     update_settings addonA = Some hookA →
     hookA sA = (Ret tt, sA') →
     sA' !! K = Some v →
     (for_each (pre ++ a :: mid) load_settings_body (resolved w0)).1
       = Ret tt →
     (∀ x s, x ∈ mid →
        settings_after load_object build_from_crawler update_settings
          (crawler (manager w)) s x !! K = s !! K) →
     load_object b = Ret clsB →
     build_from_crawler clsB (crawler (manager w))
       (foldl (settings_after load_object build_from_crawler update_settings
                 (crawler (manager w))) sA' mid)
       = (Ret addonB, sB) →
     sB !! K
       = foldl (settings_after load_object build_from_crawler update_settings
                  (crawler (manager w))) sA' mid !! K →
     update_settings addonB = Some hookB →
     ∃ seen : Settings,
       CallUpdateSettings b seen ∈ calls (load_settings w0).2 ∧
       seen = sB ∧ seen !! K = Some v) ∧
  (∀ clsA hookA sA' clsB hookB,
     for_each pre load_pre_crawler_settings_body (resolved w0) = (Ret tt, w) →
     load_object a = Ret clsA →
     update_pre_crawler_settings clsA = Some hookA →
     hookA (settings w) = (Ret tt, sA') →
     sA' !! K = Some v →
     (for_each (pre ++ a :: mid) load_pre_crawler_settings_body
        (resolved w0)).1 = Ret tt →
     (∀ x s, x ∈ mid →
        settings_after_pre load_object update_pre_crawler_settings s x !! K
          = s !! K) →
     load_object b = Ret clsB →
     update_pre_crawler_settings clsB = Some hookB →
     ∃ seen : Settings,
       CallUpdatePre b seen ∈ calls (load_pre_crawler_settings w0).2 ∧
       seen = foldl (settings_after_pre load_object
                       update_pre_crawler_settings) sA' mid ∧
       seen !! K = Some v).
Proof.
  intros Hl. split.
  - intros clsA addonA sA hookA sA' clsB addonB sB hookB
      Hpre HloadA HbuildA HhookA HrunA HK Hmid HmidK
      HloadB HbuildB HKB HhookB.
    pose proof (body_hook_returns _ _ _ _ _ _ w HloadA HbuildA HhookA HrunA)
      as HbodyA.
    set (wA := set_addons (addons (manager w) ++ [addonA])
                 (set_settings sA'
                    (record (CallUpdateSettings a sA)
                       (record (CallBuild a) (record (CallLoad a) w)))))
      in HbodyA.
    rewrite for_each_app Hpre for_each_cons HbodyA in Hmid.
    destruct (for_each_load_settings_run mid wA)
      as (ids & cs & _ & _ & _ & Hall & _ & Hs & Hc & _).
    destruct (for_each mid load_settings_body wA) as [[[]|e] wM] eqn:HrunM;
      simpl in Hmid, Hall, Hs, Hc; [|done].
    rewrite (Hall eq_refl) in Hs.
    assert (for_each (pre ++ a :: mid) load_settings_body (resolved w0)
              = (Ret tt, wM)) as HpreM.
    { by rewrite for_each_app Hpre for_each_cons HbodyA HrunM. }
    exists sB. split_and!; [|done|].
    + eapply elem_of_prefix;
        [|apply (load_settings_calls_from w0 wM (pre ++ a :: mid) post b);
          [by rewrite -app_assoc|done]].
      apply (body_hook_called b clsB addonB sB hookB wM); [done| |done].
      by rewrite Hc Hs.
    + rewrite HKB foldl_lookup_preserved; [|done]. apply HmidK.
  - intros clsA hookA sA' clsB hookB
      Hpre HloadA HhookA HrunA HK Hmid HmidK HloadB HhookB.
    pose proof (pre_body_hook _ _ _ _ _ w HloadA HhookA HrunA) as HbodyA.
    set (wA := set_settings sA'
                 (record (CallUpdatePre a (settings w))
                    (record (CallLoad a) w))) in HbodyA.
    rewrite for_each_app Hpre for_each_cons HbodyA in Hmid.
    destruct (for_each_load_pre_crawler_settings_run mid wA)
      as (ids & cs & _ & _ & _ & Hall & _ & Hs & _).
    destruct (for_each mid load_pre_crawler_settings_body wA)
      as [[[]|e] wM] eqn:HrunM; simpl in Hmid, Hall, Hs; [|done].
    rewrite (Hall eq_refl) in Hs.
    assert (for_each (pre ++ a :: mid) load_pre_crawler_settings_body
              (resolved w0) = (Ret tt, wM)) as HpreM.
    { by rewrite for_each_app Hpre for_each_cons HbodyA HrunM. }
    eexists. split_and!; [|reflexivity|].
    + eapply elem_of_prefix;
        [|apply (load_pre_crawler_settings_calls_from w0 wM
                   (pre ++ a :: mid) post b); [by rewrite -app_assoc|done]].
      rewrite -Hs. by apply (pre_body_hook_called b clsB hookB wM).
    + rewrite foldl_lookup_preserved; [|done]. apply HmidK.
Qed.

(** ** The scenario of the two add-ons *)

(** C9. With [ADDONS = {"pkg.Alpha": 100, "pkg.Beta": 200}] resolved to
    Alpha then Beta, Alpha's constructor raising
    [NotConfigured("no optional dependency")] and Beta's [update_settings]
    setting [ENABLED_FEATURE] to true, [load_settings] on a new manager
    returns, has logged the warning for [pkg.Alpha] with that reason (and
    then the summary), leaves Beta's instance as the only active add-on and
    [ENABLED_FEATURE] true in the settings. *)
Theorem C9_alpha_disabled_beta_active
    (w0 : World) (alpha beta : AddonCls) (instance : Addon)
    (hook : Effect unit) (sA sB : Settings) :
  settings w0 !! "ADDONS"
    = Some (PyMapping [("pkg.Alpha", 100%Z); ("pkg.Beta", 200%Z)]) →
  build_component_list
      (Some (PyMapping [("pkg.Alpha", 100%Z); ("pkg.Beta", 200%Z)]))
    = Ret ["pkg.Alpha"; "pkg.Beta"] →
  addons (manager w0) = [] →
  log w0 = [] →
  load_object "pkg.Alpha" = Ret alpha →
  build_from_crawler alpha (crawler (manager w0)) (settings w0)
    = (Exc (NotConfigured [PyStr "no optional dependency"]), sA) →
  load_object "pkg.Beta" = Ret beta →
  build_from_crawler beta (crawler (manager w0)) sA = (Ret instance, sB) →
  update_settings instance = Some hook →
  hook sB = (Ret tt, <["ENABLED_FEATURE" := PyBool true]> sB) →
  let r := load_settings w0 in
  r.1 = Ret tt ∧
  log r.2 = [Warning "pkg.Alpha" (PyStr "no optional dependency");
             Info [instance]] ∧
  addons (manager r.2) = [instance] ∧
  settings r.2 !! "ENABLED_FEATURE" = Some (PyBool true).
Proof.
  intros Hcfg Hl Hactive Hlog HloadA HbuildA HloadB HbuildB Hhook Hrun. simpl.
  rewrite -Hcfg in Hl.
  rewrite (load_settings_resolved _ _ Hl) !for_each_cons.
  rewrite (body_build_raises _ _ _ _ (resolved w0) HloadA HbuildA).
  rewrite /try_except_NotConfigured /raise /disabled /logger_warning.
  set (w1 := emit _ _). rewrite for_each_cons.
  rewrite (body_hook_returns "pkg.Beta" beta instance sB hook _ w1
             HloadB HbuildB Hhook Hrun) /=.
  rewrite Hactive Hlog /=. split_and!; [done..|].
  apply lookup_insert_eq.
Qed.

(** ** Further properties of the two phases *)

Lemma warned_app (rs1 rs2 : list (@LogRecord Addon)) :
  warned (rs1 ++ rs2) = warned rs1 ++ warned rs2.
Proof. apply omap_app. Qed.

Lemma load_settings_body_log (c : string) (w : World) :
  ∃ ws, log (load_settings_body c w).2 = log w ++ ws ∧
        Forall (λ r, is_warning r = true) ws ∧
        warned ws `sublist_of` [c].
Proof.
  run.
  destruct (load_object c) as [cls|[[|a args]|name]]; simpl;
    try (exists []; split_and!;
         [by rewrite app_nil_r|done|apply sublist_nil_l]);
    try (by exists [Warning c a]; split_and!; [done|repeat constructor|done]).
  destruct (build_from_crawler cls (crawler (manager w)) (settings w))
    as [[addon|[[|a args]|name]] s']; simpl;
    try (exists []; split_and!;
         [by rewrite app_nil_r|done|apply sublist_nil_l]);
    try (by exists [Warning c a]; split_and!; [done|repeat constructor|done]).
  destruct (update_settings addon) as [hook|]; simpl;
    [|exists []; split_and!; [by rewrite app_nil_r|done|apply sublist_nil_l]].
  destruct (hook s') as [[[]|[[|a args]|name]] s'']; simpl;
    try (exists []; split_and!;
         [by rewrite app_nil_r|done|apply sublist_nil_l]);
    try (by exists [Warning c a]; split_and!; [done|repeat constructor|done]).
Qed.

Lemma for_each_load_settings_log (l : list string) (w : World) :
  ∃ ws, log (for_each l load_settings_body w).2 = log w ++ ws ∧
        Forall (λ r, is_warning r = true) ws ∧
        warned ws `sublist_of` l.
Proof.
  revert w. induction l as [|x l IH]; intros w.
  - exists []. split_and!; [by rewrite app_nil_r|done..].
  - rewrite for_each_cons.
    destruct (load_settings_body_log x w) as (ws & Hws & Hall & Hsub).
    destruct (load_settings_body x w) as [[[]|e] w1]; simpl in *.
    + destruct (IH w1) as (ws' & Hws' & Hall' & Hsub').
      exists (ws ++ ws'). split_and!.
      * by rewrite Hws' Hws app_assoc.
      * by apply Forall_app.
      * rewrite warned_app. by apply (sublist_app (warned ws) [x] _ l).
    + exists ws. split_and!; [done..|].
      by apply (sublist_inserts_r l _ [x]).
Qed.

(** X1. What [load_settings] logs, once the resolver has answered with
    [l]: warnings only, for identifiers of [l] in the order of [l] and at
    most one each, and then the summary of the active add-ons, which is
    logged once, last, and only when the phase returns. *)
Theorem X1_log_is_warnings_then_summary (w : World) (l : list string) :
  build_component_list (settings w !! "ADDONS") = Ret l →
  let r := load_settings w in
  ∃ ws : list LogRecord,
    Forall (λ r, is_warning r = true) ws ∧
    warned ws `sublist_of` l ∧
    log r.2 = log w ++ ws ++ match r.1 with
                             | Ret _ => [Info (addons (manager r.2))]
                             | Exc _ => []
                             end.
Proof.
  intros Hl. simpl. rewrite (load_settings_resolved _ _ Hl).
  destruct (for_each_load_settings_log l (resolved w))
    as (ws & Hws & Hall & Hsub).
  exists ws. split_and!; [done..|].
  destruct (for_each l load_settings_body (resolved w)) as [[[]|e] w1];
    simpl in *; rewrite Hws; by rewrite ?app_assoc ?app_nil_r.
Qed.

Lemma load_settings_body_appended (c : string) (w : World) :
  crawler (manager (load_settings_body c w).2) = crawler (manager w) ∧
  ∃ new,
    addons (manager (load_settings_body c w).2) = addons (manager w) ++ new ∧
    (new = [] ∨
     ∃ a cls s s',
       new = [a] ∧ load_object c = Ret cls ∧
       build_from_crawler cls (crawler (manager w)) s = (Ret a, s')).
Proof.
  run.
  destruct (load_object c) as [cls|[[|a args]|name]] eqn:Hload; simpl;
    try (split; [done|]; exists []; split; [by rewrite app_nil_r|by left]).
  destruct (build_from_crawler cls (crawler (manager w)) (settings w))
    as [[addon|[[|a args]|name]] s'] eqn:Hbuild; simpl;
    try (split; [done|]; exists []; split; [by rewrite app_nil_r|by left]).
  destruct (update_settings addon) as [hook|]; simpl;
    [|split; [done|]; exists [addon]; split;
      [done|right; by exists addon, cls, (settings w), s']].
  destruct (hook s') as [[[]|[[|a args]|name]] s'']; simpl;
    try (split; [done|]; exists []; split; [by rewrite app_nil_r|by left]).
  split; [done|]. exists [addon]. split;
    [done|right; by exists addon, cls, (settings w), s'].
Qed.

Lemma for_each_load_settings_appended (l : list string) (w : World) :
  crawler (manager (for_each l load_settings_body w).2)
    = crawler (manager w) ∧
  ∃ (ids : list string) (new : list Addon),
    addons (manager (for_each l load_settings_body w).2)
      = addons (manager w) ++ new ∧
    ids `sublist_of` l ∧
    Forall2 (λ c a, ∃ cls s s',
               load_object c = Ret cls ∧
               build_from_crawler cls (crawler (manager w)) s = (Ret a, s'))
            ids new.
Proof.
  revert w. induction l as [|x l IH]; intros w.
  - split; [done|]. exists [], []. split_and!; [by rewrite app_nil_r|done..].
  - rewrite for_each_cons.
    destruct (load_settings_body_appended x w) as (Hc & new & Hnew & Hcase).
    destruct (load_settings_body x w) as [[[]|e] w1]; simpl in *.
    + destruct (IH w1) as (Hc' & ids & new' & Hnew' & Hsub & Hall).
      rewrite Hc in Hall. split; [congruence|].
      destruct Hcase as [->|(a & cls & s & s' & -> & Hload & Hbuild)].
      * exists ids, new'. split_and!; [by rewrite Hnew' Hnew app_nil_r| |done].
        by apply sublist_cons.
      * exists (x :: ids), (a :: new'). split_and!.
        -- by rewrite Hnew' Hnew -app_assoc.
        -- by apply sublist_skip.
        -- constructor; [by exists cls, s, s'|done].
    + split; [done|].
      destruct Hcase as [->|(a & cls & s & s' & -> & Hload & Hbuild)].
      * exists [], []. split_and!; [done|apply sublist_nil_l|done].
      * exists [x], [a]. split_and!; [done| |].
        -- apply sublist_skip, sublist_nil_l.
        -- constructor; [by exists cls, s, s'|done].
Qed.

(** X2. [load_settings] keeps [self.crawler], and what it appends to
    [self.addons] traces back to the resolver's list: the new instances
    are, in order, instances that [build_from_crawler] returned for
    identifiers of [l] taken in the order of [l], at most one each, so no
    more than [l] has identifiers. *)
Theorem X2_active_addons_follow_resolver_order
    (w : World) (l : list string) :
  build_component_list (settings w !! "ADDONS") = Ret l →
  let w' := (load_settings w).2 in
  crawler (manager w') = crawler (manager w) ∧
  ∃ (ids : list string) (new : list Addon),
    addons (manager w') = addons (manager w) ++ new ∧
    ids `sublist_of` l ∧
    Forall2 (λ c a, ∃ cls s s',
               load_object c = Ret cls ∧
               build_from_crawler cls (crawler (manager w)) s = (Ret a, s'))
            ids new ∧
    length new ≤ length l.
Proof.
  intros Hl. simpl. rewrite (load_settings_resolved _ _ Hl).
  destruct (for_each_load_settings_appended l (resolved w))
    as (Hc & ids & new & Hnew & Hsub & Hall).
  assert (length new ≤ length l) as Hlen.
  { rewrite -(Forall2_length _ _ _ Hall). by apply sublist_length. }
  destruct (for_each l load_settings_body (resolved w)) as [[[]|e] w1];
    simpl in *; (split; [done|]); by exists ids, new.
Qed.

Lemma load_settings_body_never_NotConfigured (c : string) (w : World)
    (args : list PyVal) :
  (load_settings_body c w).1 ≠ Exc (NotConfigured args).
Proof.
  run.
  destruct (load_object c) as [cls|[[|a args']|name]]; simpl; [|done..].
  destruct (build_from_crawler cls (crawler (manager w)) (settings w))
    as [[addon|[[|a args']|name]] s']; simpl; [|done..].
  destruct (update_settings addon) as [hook|]; simpl; [|done].
  by destruct (hook s') as [[[]|[[|a args']|name]] s''].
Qed.

(** X3. Once the resolver has answered, [NotConfigured] never leaves
    [load_settings]: whatever the add-ons do, the phase returns or raises
    an exception of another class. *)
Theorem X3_not_configured_never_leaves_load_settings
    (w : World) (l : list string) (args : list PyVal) :
  build_component_list (settings w !! "ADDONS") = Ret l →
  (load_settings w).1 ≠ Exc (NotConfigured args).
Proof.
  intros Hl. rewrite (load_settings_resolved _ _ Hl).
  generalize (resolved w). clear Hl w.
  induction l as [|x l IH]; intros w; [done|].
  rewrite for_each_cons.
  pose proof (load_settings_body_never_NotConfigured x w args) as Hx.
  destruct (load_settings_body x w) as [[[]|e] w1]; simpl in *;
    [apply IH|congruence].
Qed.

(** The settings change through add-on code only. *)
Lemma load_settings_body_settings (c : string) (w : World) :
  settings (load_settings_body c w).2 =
  settings_after load_object build_from_crawler update_settings
    (crawler (manager w)) (settings w) c.
Proof.
  rewrite /settings_after. run.
  destruct (load_object c) as [cls|[[|a args]|name]]; simpl; [|done..].
  destruct (build_from_crawler cls (crawler (manager w)) (settings w))
    as [[addon|[[|a args]|name]] s']; simpl; [|done..].
  destruct (update_settings addon) as [hook|]; simpl; [|done].
  by destruct (hook s') as [[[]|[[|a args]|name]] s''].
Qed.

Lemma load_pre_crawler_settings_body_settings (c : string) (w : World) :
  settings (load_pre_crawler_settings_body c w).2 =
  settings_after_pre load_object update_pre_crawler_settings (settings w) c.
Proof.
  rewrite /settings_after_pre. run.
  destruct (load_object c) as [cls|e]; simpl; [|done].
  destruct (update_pre_crawler_settings cls) as [hook|]; simpl; [|done].
  by destruct (hook (settings w)) as [[[]|e] s'].
Qed.

Lemma load_settings_body_crawler (c : string) (w : World) :
  crawler (manager (load_settings_body c w).2) = crawler (manager w).
Proof. apply load_settings_body_appended. Qed.

(** X4. The manager writes nothing to the settings itself: a property of
    the settings that every constructor and every hook preserves holds
    after either phase if it held before, whether the phase returns or
    raises. *)
Theorem X4_settings_change_only_through_addons
    (P : Settings → Prop) (w : World) :
  (∀ cls s, P s → P (build_from_crawler cls (crawler (manager w)) s).2) →
  (∀ addon hook s, update_settings addon = Some hook → P s → P (hook s).2) →
  (∀ cls hook s,
     update_pre_crawler_settings cls = Some hook → P s → P (hook s).2) →
  P (settings w) →
  P (settings (load_settings w).2) ∧
  P (settings (load_pre_crawler_settings w).2).
Proof.
  intros Hbuild Hhook Hpre HP.
  assert (∀ l (w1 : World),
    crawler (manager w1) = crawler (manager w) → P (settings w1) →
    P (settings (for_each l load_settings_body w1).2)) as Hloop2.
  { induction l as [|x l IH]; intros w1 Hc H1; [done|].
    rewrite for_each_cons.
    pose proof (load_settings_body_settings x w1) as Hs.
    pose proof (load_settings_body_crawler x w1) as Hc1.
    assert (P (settings (load_settings_body x w1).2)) as H2.
    { rewrite Hs /settings_after Hc.
      destruct (load_object x) as [cls|e]; [|done].
      pose proof (Hbuild cls (settings w1) H1) as Hb.
      destruct (build_from_crawler cls (crawler (manager w)) (settings w1))
        as [[addon|e] s1]; [|done].
      destruct (update_settings addon) as [hook|] eqn:Hh; [|done].
      by apply (Hhook addon). }
    destruct (load_settings_body x w1) as [[[]|e] w2]; simpl in *; [|done].
    apply IH; [congruence|done]. }
  assert (∀ l (w1 : World), P (settings w1) →
    P (settings (for_each l load_pre_crawler_settings_body w1).2)) as Hloop1.
  { induction l as [|x l IH]; intros w1 H1; [done|].
    rewrite for_each_cons.
    pose proof (load_pre_crawler_settings_body_settings x w1) as Hs.
    assert (P (settings (load_pre_crawler_settings_body x w1).2)) as H2.
    { rewrite Hs /settings_after_pre.
      destruct (load_object x) as [cls|e]; [|done].
      destruct (update_pre_crawler_settings cls) as [hook|] eqn:Hh; [|done].
      by apply (Hpre cls). }
    destruct (load_pre_crawler_settings_body x w1) as [[[]|e] w2];
      simpl in *; [|done].
    by apply IH. }
  destruct (build_component_list (settings w !! "ADDONS")) as [l|e] eqn:Hl.
  - rewrite (load_settings_resolved _ _ Hl)
      (load_pre_crawler_settings_resolved _ _ Hl).
    split; [|by apply Hloop1].
    pose proof (Hloop2 l (resolved w) eq_refl HP) as H2.
    by destruct (for_each l load_settings_body (resolved w)) as [[[]|e] w1].
  - rewrite (load_settings_unresolved _ _ Hl). split; [done|].
    run. by rewrite Hl.
Qed.

(** X5. What [self.addons] already holds has no influence on
    [load_settings]: with any other list in its place the phase has the
    same outcome, leaves the same settings and makes the same calls. *)
Theorem X5_load_settings_ignores_the_current_list
    (w : World) (others : list Addon) :
  let r := load_settings w in
  let r' := load_settings (set_addons others w) in
  r'.1 = r.1 ∧
  settings r'.2 = settings r.2 ∧
  calls r'.2 = calls r.2 ∧
  crawler (manager r'.2) = crawler (manager r.2).
Proof.
  simpl.
  destruct (load_settings_ahead (addons (manager w)) (set_addons [] w) w)
    as (Hr & Hs & Hc & _ & Hk); [by rewrite /= app_nil_r|].
  destruct (load_settings_ahead others (set_addons [] w) (set_addons others w))
    as (Hr' & Hs' & Hc' & _ & Hk'); [by rewrite /= app_nil_r|].
  split_and!; congruence.
Qed.

Lemma load_settings_body_ordered_calls (c : string) (w : World) :
  ∃ cs, calls (load_settings_body c w).2 = calls w ++ cs ∧
        ordered_calls c cs ∧
        (∀ e, load_object c = Exc e → cs = [CallLoad c]).
Proof.
  run.
  destruct (load_object c) as [cls|[[|a args]|name]]; simpl;
    try (by exists [CallLoad c]; split_and!; [done|left|done]).
  destruct (build_from_crawler cls (crawler (manager w)) (settings w))
    as [[addon|[[|a args]|name]] s']; simpl;
    try (by exists [CallLoad c; CallBuild c];
         split_and!; [by rewrite -app_assoc|right; left|done]).
  destruct (update_settings addon) as [hook|]; simpl;
    [|by exists [CallLoad c; CallBuild c];
      split_and!; [by rewrite -app_assoc|right; left|done]].
  destruct (hook s') as [[[]|[[|a args]|name]] s'']; simpl;
    (exists [CallLoad c; CallBuild c; CallUpdateSettings c s'];
     split_and!; [by rewrite -!app_assoc|right; right; by exists s'|done]).
Qed.

(** X6. For each identifier [load_settings] calls [load_object] first,
    then [build_from_crawler], then [update_settings], each at most once
    and none without the one before; an identifier that [load_object]
    raises for gets no other call. *)
Theorem X6_calls_per_identifier_in_order (w : World) (l : list string) :
  build_component_list (settings w !! "ADDONS") = Ret l →
  ∃ (ids : list string) (chunks : list (list Call)),
    calls (load_settings w).2 = calls (resolved w) ++ concat chunks ∧
    ids `prefix_of` l ∧
    ((load_settings w).1 = Ret tt → ids = l) ∧
    Forall2 (λ c cs, ordered_calls c cs ∧
                     (∀ e, load_object c = Exc e → cs = [CallLoad c]))
            ids chunks.
Proof.
  intros Hl. rewrite (load_settings_resolved _ _ Hl).
  assert (∀ (w1 : World),
    ∃ ids chunks,
      calls (for_each l load_settings_body w1).2 = calls w1 ++ concat chunks ∧
      ids `prefix_of` l ∧
      ((for_each l load_settings_body w1).1 = Ret tt → ids = l) ∧
      Forall2 (λ c cs, ordered_calls c cs ∧
                       (∀ e, load_object c = Exc e → cs = [CallLoad c]))
              ids chunks) as Hloop.
  { clear Hl w. induction l as [|x l IH]; intros w1.
    - exists [], []. split_and!; [by rewrite /= app_nil_r|done..].
    - rewrite for_each_cons.
      destruct (load_settings_body_ordered_calls x w1)
        as (cs & Hcs & Hord & Hexc).
      destruct (load_settings_body x w1) as [[[]|e] w2]; simpl in *.
      + destruct (IH w2) as (ids & chunks & Hk & Hpre & Hall & Hch).
        exists (x :: ids), (cs :: chunks). split_and!.
        * by rewrite Hk Hcs /= app_assoc.
        * by apply prefix_cons.
        * intros Hret. by rewrite Hall.
        * by constructor.
      + exists [x], [cs]. split_and!.
        * by rewrite /= app_nil_r.
        * by apply prefix_cons, prefix_nil.
        * done.
        * constructor; [done|constructor]. }
  destruct (Hloop (resolved w)) as (ids & chunks & Hk & Hpre & Hall & Hch).
  exists ids, chunks.
  destruct (for_each l load_settings_body (resolved w)) as [[[]|e] w1];
    simpl in *; by split_and!.
Qed.

(** X7. The settings [load_pre_crawler_settings] leaves are those of
    running the [update_pre_crawler_settings] hooks one after the other
    along the resolver's list, each on what the one before left: along all
    of it when the phase returns; when it raises, along the identifiers
    that went through followed by the one that raised, whose hook's writes
    stay. *)
Theorem X7_pre_crawler_settings_are_the_hooks_in_order
    (w : World) (l : list string) :
  build_component_list (settings w !! "ADDONS") = Ret l →
  ∃ ids : list string,
    ids `prefix_of` l ∧
    ((load_pre_crawler_settings w).1 = Ret tt → ids = l) ∧
    settings (load_pre_crawler_settings w).2 =
    foldl (settings_after_pre load_object update_pre_crawler_settings)
      (settings w) ids ∧
    (∀ e, (load_pre_crawler_settings w).1 = Exc e →
       ∃ pre x post w1,
         l = pre ++ x :: post ∧ ids = pre ++ [x] ∧
         for_each pre load_pre_crawler_settings_body (resolved w)
           = (Ret tt, w1) ∧
         (load_pre_crawler_settings_body x w1).1 = Exc e).
Proof.
  intros Hl. rewrite (load_pre_crawler_settings_resolved _ _ Hl).
  destruct (for_each_load_pre_crawler_settings_run l (resolved w))
    as (ids & cs & _ & _ & Hpre & Hall & _ & Hs & Hexc).
  by exists ids.
Qed.

(** X8. The settings [load_settings] leaves are those of running, along
    the resolver's list, each constructor and then its [update_settings]
    on what the identifier before left, with nothing undone for an add-on
    that opted out or failed: along all of the list when the phase
    returns; when it raises, along the identifiers that went through
    followed by the one that raised, whose writes stay. *)
Theorem X8_settings_are_the_addons_in_order (w : World) (l : list string) :
  build_component_list (settings w !! "ADDONS") = Ret l →
  ∃ ids : list string,
    ids `prefix_of` l ∧
    ((load_settings w).1 = Ret tt → ids = l) ∧
    settings (load_settings w).2 =
    foldl (settings_after load_object build_from_crawler update_settings
             (crawler (manager w)))
      (settings w) ids ∧
    (∀ e, (load_settings w).1 = Exc e →
       ∃ pre x post w1,
         l = pre ++ x :: post ∧ ids = pre ++ [x] ∧
         for_each pre load_settings_body (resolved w) = (Ret tt, w1) ∧
         (load_settings_body x w1).1 = Exc e).
Proof.
  intros Hl. rewrite (load_settings_resolved _ _ Hl).
  destruct (for_each_load_settings_run l (resolved w))
    as (ids & cs & _ & _ & Hpre & Hall & _ & Hs & _ & _ & Hexc).
  exists ids.
  destruct (for_each l load_settings_body (resolved w)) as [[[]|e] w1];
    simpl in *; by split_and!.
Qed.

(** Two worlds with the same settings and the same calls so far. *)
#[local] Abbreviation alike w1 w2 :=
  (settings w2 = settings w1 ∧ calls w2 = calls w1).

Lemma load_pre_crawler_settings_body_alike (c : string) (w1 w2 : World) :
  alike w1 w2 →
  (load_pre_crawler_settings_body c w2).1
    = (load_pre_crawler_settings_body c w1).1 ∧
  alike (load_pre_crawler_settings_body c w1).2
        (load_pre_crawler_settings_body c w2).2.
Proof.
  destruct w1 as [s1 m1 l1 k1], w2 as [s2 m2 l2 k2]; simpl.
  intros (-> & ->). run.
  destruct (load_object c) as [cls|e]; simpl; [|done].
  destruct (update_pre_crawler_settings cls) as [hook|]; simpl; [|done].
  by destruct (hook s1) as [[[]|e] s'].
Qed.

(** X9. [load_pre_crawler_settings] reads neither the manager nor the
    log: run with any other crawler, list of active add-ons and log, it
    has the same outcome, leaves the same settings and makes the same
    calls. *)
Theorem X9_pre_crawler_phase_ignores_the_manager
    (w : World) (m : AddonManager) (rs : list LogRecord) :
  let r := load_pre_crawler_settings w in
  let r' := load_pre_crawler_settings (mkWorld (settings w) m rs (calls w)) in
  r'.1 = r.1 ∧ settings r'.2 = settings r.2 ∧ calls r'.2 = calls r.2.
Proof.
  simpl. set (w2 := mkWorld (settings w) m rs (calls w)).
  assert (∀ l (w1 w2 : World), alike w1 w2 →
    (for_each l load_pre_crawler_settings_body w2).1
      = (for_each l load_pre_crawler_settings_body w1).1 ∧
    alike (for_each l load_pre_crawler_settings_body w1).2
          (for_each l load_pre_crawler_settings_body w2).2) as Hloop.
  { clear. induction l as [|x l IH]; intros w1 w2 Hw; [done|].
    rewrite !for_each_cons.
    destruct (load_pre_crawler_settings_body_alike x w1 w2 Hw) as [Hr Hw'].
    destruct (load_pre_crawler_settings_body x w1) as [[[]|e1] w1'],
      (load_pre_crawler_settings_body x w2) as [[[]|e2] w2'];
      simpl in *; try done.
    by apply IH. }
  destruct (build_component_list (settings w !! "ADDONS")) as [l|e] eqn:Hl.
  - rewrite (load_pre_crawler_settings_resolved w l Hl)
      (load_pre_crawler_settings_resolved w2 l Hl).
    destruct (Hloop l (resolved w) (resolved w2)) as (Hr & Hs & Hk); done.
  - run. by rewrite Hl.
Qed.

End properties.

(** * The properties on the small project *)

(** [pkg.Plain] is activated, then [pkg.Alpha] opts out while it is
    constructed; [pkg.Beta] is still to come. *)
Lemma C1_witness :
  let w0 := Example.world
              [("pkg.Plain", 50%Z); ("pkg.Alpha", 100%Z); ("pkg.Beta", 200%Z)] in
  let w := (for_each ["pkg.Plain"] Example.load_settings_body (resolved w0)).2 in
  ∃ w' : World unit Example.Instance,
    Example.load_settings_body "pkg.Alpha" w = (Ret tt, w') ∧
    addons (manager w') = addons (manager w) ∧
    log w' = log w ++ disabled_log "pkg.Alpha" [PyStr "no optional dependency"] ∧
    calls w' = calls w ++ [CallLoad "pkg.Alpha"; CallBuild "pkg.Alpha"] ∧
    settings w' = settings w ∧
    Example.load_settings w0 =
      (for_each ["pkg.Beta"] Example.load_settings_body ;; logger_info_enabled)
        w' ∧
    ((for_each ["pkg.Beta"] Example.load_settings_body w').1 = Ret tt →
     (Example.load_settings w0).1 = Ret tt).
Proof.
  intros w0 w.
  apply (C1_not_configured_at_construction_is_isolated
           spec_build_component_list Example.load_object
           Example.build_from_crawler Example.update_settings
           w0 w ["pkg.Plain"] ["pkg.Beta"] "pkg.Alpha" Example.Alpha).
  - vm_compute. reflexivity.
  - vm_compute. reflexivity.
  - vm_compute. reflexivity.
  - vm_compute. reflexivity.
Defined.

(** [pkg.Beta] is activated, then the constructor of [pkg.Broken] raises
    [ValueError]: [pkg.Plain] is never reached. *)
Lemma C2_witness :
  let w0 := Example.world
              [("pkg.Beta", 100%Z); ("pkg.Broken", 200%Z); ("pkg.Plain", 300%Z)] in
  let w := (for_each ["pkg.Beta"] Example.load_settings_body (resolved w0)).2 in
  ∃ (w' : World unit Example.Instance) (cs : list Call),
    Example.load_settings w0 = (Exc (OtherError "ValueError"), w') ∧
    addons (manager w') = addons (manager w) ∧
    log w' = log w ∧
    calls w' = calls w ++ cs ∧ calls_for "pkg.Broken" cs ∧
    addons (manager w') = [Example.BetaInstance].
Proof.
  intros w0 w.
  apply (C2_other_errors_abort_the_phase
           spec_build_component_list Example.load_object
           Example.build_from_crawler Example.update_settings
           w0 w ["pkg.Beta"] ["pkg.Plain"] "pkg.Broken" "ValueError").
  - vm_compute. reflexivity.
  - vm_compute. reflexivity.
  - right. left. exists Example.Broken, (settings w).
    split; vm_compute; reflexivity.
Defined.

(** Importing [pkg.Lazy] raises [NotConfigured]: the exception does not
    leave [load_settings], which goes on to activate [pkg.Beta] and
    returns. *)
Lemma C3_counterexample :
  let w0 := Example.world [("pkg.Lazy", 100%Z); ("pkg.Beta", 200%Z)] in
  Example.load_object "pkg.Lazy"
    = Exc (NotConfigured [PyStr "module opted out"]) ∧
  ¬ (∃ e w', Example.load_settings w0 = (Exc e, w')) ∧
  (Example.load_settings w0).1 = Ret tt ∧
  addons (manager (Example.load_settings w0).2) = [Example.BetaInstance] ∧
  log (Example.load_settings w0).2
    = [Warning "pkg.Lazy" (PyStr "module opted out");
       Info [Example.BetaInstance]].
Proof.
  intros w0. split_and!; try (vm_compute; reflexivity).
  intros (e & w' & He).
  assert ((Example.load_settings w0).1 = Exc e) as Hfst by by rewrite He.
  vm_compute in Hfst. discriminate.
Qed.

(** The three places inside the [try] block, an import error, and a
    resolver that raises. *)
Lemma C3_witness :
  let w := resolved (Example.world []) in
  (∃ w' : World unit Example.Instance,
     Example.load_settings_body "pkg.Lazy" w = (Ret tt, w') ∧
     settings w' = settings w ∧ manager w' = manager w ∧
     log w' = log w ++ disabled_log "pkg.Lazy" [PyStr "module opted out"] ∧
     calls w' = calls w ++ [CallLoad "pkg.Lazy"]) ∧
  (∃ w' : World unit Example.Instance,
     Example.load_settings_body "pkg.Alpha" w = (Ret tt, w') ∧
     settings w' = settings w ∧ manager w' = manager w ∧
     log w' = log w
              ++ disabled_log "pkg.Alpha" [PyStr "no optional dependency"]) ∧
  (∃ w' : World unit Example.Instance,
     Example.load_settings_body "pkg.Shy" w = (Ret tt, w') ∧
     settings w' = <["SHY_WAS_HERE" := PyBool true]> (settings w) ∧
     manager w' = manager w ∧
     log w' = log w ++ disabled_log "pkg.Shy" []) ∧
  Example.load_settings_body "pkg.Nowhere" w
    = (Exc (OtherError "NameError"), record (CallLoad "pkg.Nowhere") w) ∧
  load_settings (λ _, Exc (NotConfigured [])) Example.load_object
      Example.build_from_crawler Example.update_settings w
    = (Exc (NotConfigured []), resolved w).
Proof.
  intros w.
  pose proof (C3_not_configured_is_caught_at_load_too
                spec_build_component_list Example.load_object
                Example.build_from_crawler Example.update_settings) as H.
  split_and!.
  - apply (H w "pkg.Lazy"). vm_compute. reflexivity.
  - apply (proj1 (proj2 (H w "pkg.Alpha")) Example.Alpha);
      vm_compute; reflexivity.
  - apply (proj1 (proj2 (proj2 (H w "pkg.Shy")))
             Example.Shy Example.ShyInstance (settings w)
             (λ s, (Exc (NotConfigured []), <["SHY_WAS_HERE" := PyBool true]> s)));
      vm_compute; reflexivity.
  - apply (H w "pkg.Nowhere"). vm_compute. reflexivity.
  - apply (C3_not_configured_is_caught_at_load_too
             (λ _, Exc (NotConfigured [])) Example.load_object
             Example.build_from_crawler Example.update_settings w "").
    reflexivity.
Defined.

(** Three add-ons declared out of order. *)
Lemma C4_witness :
  let w := Example.world
             [("pkg.Beta", 200%Z); ("pkg.Reader", 300%Z); ("pkg.Plain", 100%Z)] in
  let l := ["pkg.Plain"; "pkg.Beta"; "pkg.Reader"] in
  ∃ (ids1 ids2 : list string) (cs1 cs2 : list Call),
    calls (Example.load_pre_crawler_settings w).2 = calls (resolved w) ++ cs1 ∧
    calls (Example.load_settings w).2 = calls (resolved w) ++ cs2 ∧
    processes ids1 cs1 ∧ processes ids2 cs2 ∧
    ids1 `prefix_of` l ∧ ids2 `prefix_of` l ∧
    ((Example.load_pre_crawler_settings w).1 = Ret tt → ids1 = l) ∧
    ((Example.load_settings w).1 = Ret tt → ids2 = l) ∧
    loaded cs1 = ids1 ∧ loaded cs2 = ids2 ∧
    hooked cs1 `sublist_of` l ∧ hooked cs2 `sublist_of` l ∧
    ((Example.load_pre_crawler_settings w).1 = Ret tt →
     (Example.load_settings w).1 = Ret tt → loaded cs1 = loaded cs2) ∧
    hooked cs1
      = List.filter
          (calls_update_pre_crawler_settings Example.load_object
             Example.update_pre_crawler_settings) ids1 ∧
    hooked cs2
      = hooked_along Example.load_object Example.build_from_crawler
          Example.update_settings (crawler (manager w)) (settings w) ids2.
Proof.
  intros w l.
  apply (C4_both_phases_follow_resolver_order
           spec_build_component_list Example.load_object
           Example.build_from_crawler Example.update_settings
           Example.update_pre_crawler_settings w l).
  vm_compute. reflexivity.
Defined.

(** [pkg.Beta] sets [ENABLED_FEATURE]; [pkg.Alpha] and [pkg.Shy] come next
    and are disabled, [pkg.Shy] after leaving its mark; [pkg.Reader], last,
    is handed settings that hold [ENABLED_FEATURE], in either phase. *)
Lemma C5_witness :
  let w0 := Example.world
              [("pkg.Reader", 200%Z); ("pkg.Shy", 170%Z); ("pkg.Beta", 100%Z);
               ("pkg.Alpha", 150%Z)] in
  (∃ seen : Settings,
     CallUpdateSettings "pkg.Reader" seen ∈ calls (Example.load_settings w0).2 ∧
     seen = <["SHY_WAS_HERE" := PyBool true]>
              (<["ENABLED_FEATURE" := PyBool true]> (settings w0)) ∧
     seen !! "ENABLED_FEATURE" = Some (PyBool true)) ∧
  (∃ seen : Settings,
     CallUpdatePre "pkg.Reader" seen
       ∈ calls (Example.load_pre_crawler_settings w0).2 ∧
     seen = foldl (settings_after_pre Example.load_object
                     Example.update_pre_crawler_settings)
              (<["ENABLED_FEATURE" := PyBool true]> (settings w0))
              ["pkg.Alpha"; "pkg.Shy"] ∧
     seen !! "ENABLED_FEATURE" = Some (PyBool true)).
Proof.
  intros w0.
  pose proof (C5_later_hook_sees_earlier_mutation
                spec_build_component_list Example.load_object
                Example.build_from_crawler Example.update_settings
                Example.update_pre_crawler_settings
                w0 (resolved w0) [] ["pkg.Alpha"; "pkg.Shy"] []
                "pkg.Beta" "pkg.Reader"
                "ENABLED_FEATURE" (PyBool true)) as [H2 H1];
    [vm_compute; reflexivity|].
  split.
  - apply (H2 Example.Beta Example.BetaInstance (settings w0)
             (λ s, (Ret tt, <["ENABLED_FEATURE" := PyBool true]> s))
             (<["ENABLED_FEATURE" := PyBool true]> (settings w0))
             Example.Reader Example.ReaderInstance
             (<["SHY_WAS_HERE" := PyBool true]>
                (<["ENABLED_FEATURE" := PyBool true]> (settings w0)))
             (λ s, (Ret tt,
                    <["SEEN" := default PyNone (s !! "ENABLED_FEATURE")]> s)));
      try (vm_compute; reflexivity).
    intros x s [->|[->|[]%elem_of_nil]%elem_of_cons]%elem_of_cons.
    + reflexivity.
    + change (<["SHY_WAS_HERE" := PyBool true]> s !! "ENABLED_FEATURE"
              = s !! "ENABLED_FEATURE").
      by apply lookup_insert_ne.
  - apply (H1 Example.Beta
             (λ s, (Ret tt, <["ENABLED_FEATURE" := PyBool true]> s))
             (<["ENABLED_FEATURE" := PyBool true]> (settings w0))
             Example.Reader
             (λ s, (Ret tt,
                    <["SEEN" := default PyNone (s !! "ENABLED_FEATURE")]> s)));
      try (vm_compute; reflexivity).
    intros x s [->|[->|[]%elem_of_nil]%elem_of_cons]%elem_of_cons;
      reflexivity.
Defined.

(** [pkg.Early] opts out in its pre-crawler hook: the phase raises, and
    [pkg.Reader] is never loaded. *)
Lemma C6_witness :
  let w0 := Example.world
              [("pkg.Beta", 100%Z); ("pkg.Early", 200%Z); ("pkg.Reader", 300%Z)] in
  let w := (for_each ["pkg.Beta"] Example.load_pre_crawler_settings_body
              (resolved w0)).2 in
  ∃ (w' : World unit Example.Instance) (cs : list Call),
    Example.load_pre_crawler_settings w0
      = (Exc (NotConfigured [PyStr "too early"]), w') ∧
    calls w' = calls w ++ cs ∧ calls_for "pkg.Early" cs.
Proof.
  intros w0 w.
  apply (C6_pre_crawler_phase_catches_nothing
           spec_build_component_list Example.load_object
           Example.update_pre_crawler_settings
           w0 w ["pkg.Beta"] ["pkg.Reader"] "pkg.Early").
  - vm_compute. reflexivity.
  - vm_compute. reflexivity.
  - right.
    exists Example.Early,
      (λ s, (Exc (NotConfigured [PyStr "too early"]), s)), (settings w).
    split_and!; vm_compute; reflexivity.
Defined.

(** A manager that already holds an add-on goes through the pre-crawler
    phase untouched. *)
Lemma C7_witness :
  let w := set_addons [Example.PlainInstance]
             (Example.world [("pkg.Beta", 100%Z); ("pkg.Reader", 200%Z)]) in
  let w' := (Example.load_pre_crawler_settings w).2 in
  manager w' = manager w ∧
  log w' = log w ∧
  ∃ cs : list Call,
    calls w' = calls w ++ cs ∧
    Forall (λ k, instance_call k = false) cs ∧
    (hooked cs = [] → settings w' = settings w).
Proof.
  intros w.
  exact (C7_pre_crawler_phase_frame
           spec_build_component_list Example.load_object
           Example.update_pre_crawler_settings w).
Defined.

(** [pkg.Plain] has no [update_settings]; [pkg.Beta]'s returns; [pkg.Shy]'s
    raises [NotConfigured] after leaving a mark. *)
Lemma C8_witness :
  let w := resolved (Example.world []) in
  let plain := Example.load_settings_body "pkg.Plain" w in
  let beta := Example.load_settings_body "pkg.Beta" w in
  let shy := Example.load_settings_body "pkg.Shy" w in
  (plain.1 = Ret tt ∧
   calls plain.2 = calls w ++ [CallLoad "pkg.Plain"; CallBuild "pkg.Plain"] ∧
   settings plain.2 = settings w ∧
   addons (manager plain.2) = addons (manager w) ++ [Example.PlainInstance]) ∧
  (calls beta.2 = calls w ++ [CallLoad "pkg.Beta"; CallBuild "pkg.Beta";
                              CallUpdateSettings "pkg.Beta" (settings w)] ∧
   settings beta.2 = <["ENABLED_FEATURE" := PyBool true]> (settings w) ∧
   beta.1 = Ret tt ∧
   addons (manager beta.2) = addons (manager w) ++ [Example.BetaInstance] ∧
   log beta.2 = log w) ∧
  (calls shy.2 = calls w ++ [CallLoad "pkg.Shy"; CallBuild "pkg.Shy";
                             CallUpdateSettings "pkg.Shy" (settings w)] ∧
   settings shy.2 = <["SHY_WAS_HERE" := PyBool true]> (settings w) ∧
   shy.1 = Ret tt ∧
   addons (manager shy.2) = addons (manager w) ∧
   log shy.2 = log w ++ disabled_log "pkg.Shy" []).
Proof.
  intros w plain beta shy.
  pose proof (C8_update_settings_called_iff_present
                Example.load_object Example.build_from_crawler
                Example.update_settings w) as H.
  split; [|split].
  - refine (H "pkg.Plain" Example.Plain Example.PlainInstance (settings w) _ _);
      vm_compute; reflexivity.
  - refine (H "pkg.Beta" Example.Beta Example.BetaInstance (settings w) _ _);
      vm_compute; reflexivity.
  - refine (H "pkg.Shy" Example.Shy Example.ShyInstance (settings w) _ _);
      vm_compute; reflexivity.
Defined.

(** The scenario on the small project, with the resolver of the spec. *)
Lemma C9_witness :
  let w0 := Example.world [("pkg.Alpha", 100%Z); ("pkg.Beta", 200%Z)] in
  let r := Example.load_settings w0 in
  r.1 = Ret tt ∧
  log r.2 = [Warning "pkg.Alpha" (PyStr "no optional dependency");
             Info [Example.BetaInstance]] ∧
  addons (manager r.2) = [Example.BetaInstance] ∧
  settings r.2 !! "ENABLED_FEATURE" = Some (PyBool true).
Proof.
  intros w0.
  apply (C9_alpha_disabled_beta_active
           spec_build_component_list Example.load_object
           Example.build_from_crawler Example.update_settings
           w0 Example.Alpha Example.Beta Example.BetaInstance
           (λ s, (Ret tt, <["ENABLED_FEATURE" := PyBool true]> s))
           (settings w0) (settings w0));
    vm_compute; reflexivity.
Defined.


(** ** Further properties on the small project *)

(** [pkg.Alpha] and [pkg.Lazy] are disabled with a reason, [pkg.Beta] is
    activated. *)
Lemma X1_witness :
  let w := Example.world
             [("pkg.Alpha", 100%Z); ("pkg.Beta", 200%Z); ("pkg.Lazy", 300%Z)] in
  let r := Example.load_settings w in
  ∃ ws : list (@LogRecord Example.Instance),
    Forall (λ r, is_warning r = true) ws ∧
    warned ws `sublist_of` ["pkg.Alpha"; "pkg.Beta"; "pkg.Lazy"] ∧
    log r.2 = log w ++ ws ++ match r.1 with
                             | Ret _ => [Info (addons (manager r.2))]
                             | Exc _ => []
                             end.
Proof.
  intros w.
  apply (X1_log_is_warnings_then_summary
           spec_build_component_list Example.load_object
           Example.build_from_crawler Example.update_settings w).
  vm_compute. reflexivity.
Defined.

Lemma X2_witness :
  let w := Example.world
             [("pkg.Alpha", 100%Z); ("pkg.Beta", 200%Z); ("pkg.Plain", 300%Z)] in
  let w' := (Example.load_settings w).2 in
  crawler (manager w') = crawler (manager w) ∧
  ∃ (ids : list string) (new : list Example.Instance),
    addons (manager w') = addons (manager w) ++ new ∧
    ids `sublist_of` ["pkg.Alpha"; "pkg.Beta"; "pkg.Plain"] ∧
    Forall2 (λ c a, ∃ cls s s',
               Example.load_object c = Ret cls ∧
               Example.build_from_crawler cls (crawler (manager w)) s
                 = (Ret a, s'))
            ids new ∧
    length new ≤ length ["pkg.Alpha"; "pkg.Beta"; "pkg.Plain"].
Proof.
  intros w.
  apply (X2_active_addons_follow_resolver_order
           spec_build_component_list Example.load_object
           Example.build_from_crawler Example.update_settings w).
  vm_compute. reflexivity.
Defined.

(** With [pkg.Alpha] opting out and [pkg.Broken] failing, what leaves the
    phase is not [NotConfigured]. *)
Lemma X3_witness :
  let w := Example.world [("pkg.Alpha", 100%Z); ("pkg.Broken", 200%Z)] in
  (Example.load_settings w).1
    ≠ Exc (NotConfigured [PyStr "no optional dependency"]).
Proof.
  intros w.
  apply (X3_not_configured_never_leaves_load_settings
           spec_build_component_list Example.load_object
           Example.build_from_crawler Example.update_settings w
           ["pkg.Alpha"; "pkg.Broken"]).
  vm_compute. reflexivity.
Defined.

(** No add-on of the small project touches [ADDONS]. *)
Lemma X4_witness :
  let cfg := [("pkg.Beta", 100%Z); ("pkg.Shy", 200%Z); ("pkg.Reader", 300%Z)] in
  let w := Example.world cfg in
  settings (Example.load_settings w).2 !! "ADDONS" = Some (PyMapping cfg) ∧
  settings (Example.load_pre_crawler_settings w).2 !! "ADDONS"
    = Some (PyMapping cfg).
Proof.
  intros cfg w.
  apply (X4_settings_change_only_through_addons
           spec_build_component_list Example.load_object
           Example.build_from_crawler Example.update_settings
           Example.update_pre_crawler_settings
           (λ s, s !! "ADDONS" = Some (PyMapping cfg)) w).
  - intros cls s Hs. by destruct cls.
  - intros addon hook s Hhook Hs.
    destruct addon; simpl in Hhook; simplify_eq; simpl;
      by rewrite lookup_insert_ne.
  - intros cls hook s Hhook Hs.
    destruct cls; simpl in Hhook; simplify_eq; simpl;
      by rewrite ?lookup_insert_ne.
  - vm_compute. reflexivity.
Defined.

Lemma X5_witness :
  let w := Example.world [("pkg.Beta", 100%Z); ("pkg.Broken", 200%Z)] in
  let r := Example.load_settings w in
  let r' := Example.load_settings
              (set_addons [Example.PlainInstance; Example.ShyInstance] w) in
  r'.1 = r.1 ∧
  settings r'.2 = settings r.2 ∧
  calls r'.2 = calls r.2 ∧
  crawler (manager r'.2) = crawler (manager r.2).
Proof.
  intros w.
  exact (X5_load_settings_ignores_the_current_list
           spec_build_component_list Example.load_object
           Example.build_from_crawler Example.update_settings w
           [Example.PlainInstance; Example.ShyInstance]).
Defined.

Lemma X6_witness :
  let w := Example.world
             [("pkg.Lazy", 100%Z); ("pkg.Alpha", 200%Z); ("pkg.Beta", 300%Z)] in
  let l := ["pkg.Lazy"; "pkg.Alpha"; "pkg.Beta"] in
  ∃ (ids : list string) (chunks : list (list Call)),
    calls (Example.load_settings w).2 = calls (resolved w) ++ concat chunks ∧
    ids `prefix_of` l ∧
    ((Example.load_settings w).1 = Ret tt → ids = l) ∧
    Forall2 (λ c cs, ordered_calls c cs ∧
                     (∀ e, Example.load_object c = Exc e → cs = [CallLoad c]))
            ids chunks.
Proof.
  intros w l.
  apply (X6_calls_per_identifier_in_order
           spec_build_component_list Example.load_object
           Example.build_from_crawler Example.update_settings w l).
  vm_compute. reflexivity.
Defined.

Lemma X7_witness :
  let w := Example.world
             [("pkg.Reader", 300%Z); ("pkg.Beta", 100%Z); ("pkg.Early", 200%Z)] in
  let l := ["pkg.Beta"; "pkg.Early"; "pkg.Reader"] in
  ∃ ids : list string,
    ids `prefix_of` l ∧
    ((Faulty.load_pre_crawler_settings w).1 = Ret tt → ids = l) ∧
    settings (Faulty.load_pre_crawler_settings w).2 =
    foldl (settings_after_pre Example.load_object
             Faulty.update_pre_crawler_settings)
      (settings w) ids ∧
    (∀ e, (Faulty.load_pre_crawler_settings w).1 = Exc e →
       ∃ pre x post w1,
         l = pre ++ x :: post ∧ ids = pre ++ [x] ∧
         for_each pre
           (load_pre_crawler_settings_body Example.load_object
              Faulty.update_pre_crawler_settings) (resolved w)
           = (Ret tt, w1) ∧
         (load_pre_crawler_settings_body Example.load_object
            Faulty.update_pre_crawler_settings x w1).1 = Exc e).
Proof.
  intros w l.
  apply (X7_pre_crawler_settings_are_the_hooks_in_order
           spec_build_component_list Example.load_object
           Faulty.update_pre_crawler_settings w l).
  vm_compute. reflexivity.
Defined.

Lemma X8_witness :
  let w := Example.world
             [("pkg.Shy", 200%Z); ("pkg.Beta", 100%Z); ("pkg.Broken", 300%Z);
              ("pkg.Reader", 400%Z)] in
  let l := ["pkg.Beta"; "pkg.Shy"; "pkg.Broken"; "pkg.Reader"] in
  ∃ ids : list string,
    ids `prefix_of` l ∧
    ((Faulty.load_settings w).1 = Ret tt → ids = l) ∧
    settings (Faulty.load_settings w).2 =
    foldl (settings_after Example.load_object Faulty.build_from_crawler
             Example.update_settings (crawler (manager w)))
      (settings w) ids ∧
    (∀ e, (Faulty.load_settings w).1 = Exc e →
       ∃ pre x post w1,
         l = pre ++ x :: post ∧ ids = pre ++ [x] ∧
         for_each pre
           (load_settings_body Example.load_object Faulty.build_from_crawler
              Example.update_settings) (resolved w) = (Ret tt, w1) ∧
         (load_settings_body Example.load_object Faulty.build_from_crawler
            Example.update_settings x w1).1 = Exc e).
Proof.
  intros w l.
  apply (X8_settings_are_the_addons_in_order
           spec_build_component_list Example.load_object
           Faulty.build_from_crawler Example.update_settings w l).
  vm_compute. reflexivity.
Defined.

Lemma X9_witness :
  let w := Example.world [("pkg.Beta", 100%Z); ("pkg.Reader", 200%Z)] in
  let r := Example.load_pre_crawler_settings w in
  let r' := Example.load_pre_crawler_settings
              (mkWorld (settings w)
                 (mkAddonManager tt [Example.PlainInstance])
                 [Info [Example.PlainInstance]] (calls w)) in
  r'.1 = r.1 ∧ settings r'.2 = settings r.2 ∧ calls r'.2 = calls r.2.
Proof.
  intros w.
  exact (X9_pre_crawler_phase_ignores_the_manager
           spec_build_component_list Example.load_object
           Example.update_pre_crawler_settings w
           (mkAddonManager tt [Example.PlainInstance])
           [Info [Example.PlainInstance]]).
Defined.
